(** * Lightweight Python components: from a function signature to a component

  A shallow embedding of [sdk/python/kfp/components/_python_op.py]: the
  analysis of a function signature into input and output descriptors
  ([_extract_component_interface]), the construction of the command-line
  template and of the generated program ([_func_to_component_spec]), the
  resolution of the container image, and the version guard of the loader
  emitted by [_capture_function_code_using_cloudpickle].

  Python sets are [gset string]; a set turned into a list ([list(s)]) goes
  through an explicit iteration order, since CPython orders a set of strings
  by their (per-process salted) hashes.  Exceptions are an error result. *)

From Stdlib Require Import Ascii.
From stdpp Require Import gmap strings list pretty.

Open Scope string_scope.

(** ** Python string operations used by the module *)

Module PyStr.

(** The double quote and the newline, as one-character strings. *)
Definition dq : string := String "034"%char EmptyString.
Definition nl : string := String "010"%char EmptyString.

Definition is_char (a c : ascii) : bool := Ascii.eqb c a.

(** ASCII whitespace, what [str.strip()] removes. *)
Definition is_space (c : ascii) : bool :=
  let n := nat_of_ascii c in
  ((n =? 32) || ((9 <=? n) && (n <=? 13)) || ((28 <=? n) && (n <=? 31)))%nat.

(** [s.replace(old, new)] for one-character [old] and [new]. *)
Fixpoint replace (old new : ascii) (s : string) : string :=
  match s with
  | EmptyString => EmptyString
  | String c s' =>
      String (if Ascii.eqb c old then new else c) (replace old new s')
  end.

(** [s.endswith(suffix)] *)
Definition endswith (s suffix : string) : bool :=
  let n := String.length s in
  let m := String.length suffix in
  (m <=? n)%nat && String.eqb (String.substring (n - m) m s) suffix.

(** [s.startswith(prefix)] *)
Definition startswith (prefix s : string) : bool :=
  String.eqb (String.substring 0 (String.length prefix) s) prefix.

(** [s[k:]] *)
Definition drop_first (k : nat) (s : string) : string :=
  String.substring k (String.length s - k) s.

(** [s[0:-k]] for [k > 0] *)
Definition drop_last (k : nat) (s : string) : string :=
  String.substring 0 (String.length s - k) s.

Fixpoint lstrip (p : ascii -> bool) (s : string) : string :=
  match s with
  | EmptyString => EmptyString
  | String c s' => if p c then lstrip p s' else s
  end.

Fixpoint rstrip (p : ascii -> bool) (s : string) : string :=
  match s with
  | EmptyString => EmptyString
  | String c s' =>
      match rstrip p s' with
      | EmptyString => if p c then EmptyString else String c EmptyString
      | r => String c r
      end
  end.

Definition strip (p : ascii -> bool) (s : string) : string :=
  rstrip p (lstrip p s).

Definition upper (c : ascii) : ascii :=
  let n := nat_of_ascii c in
  if ((97 <=? n) && (n <=? 122))%nat then ascii_of_nat (n - 32) else c.

Definition lower (c : ascii) : ascii :=
  let n := nat_of_ascii c in
  if ((65 <=? n) && (n <=? 90))%nat then ascii_of_nat (n + 32) else c.

Fixpoint map_chars (f : ascii -> ascii) (s : string) : string :=
  match s with
  | EmptyString => EmptyString
  | String c s' => String (f c) (map_chars f s')
  end.

(** [s.capitalize()] on ASCII text. *)
Definition capitalize (s : string) : string :=
  match s with
  | EmptyString => EmptyString
  | String c s' => String (upper c) (map_chars lower s')
  end.

(** [re.sub(' +', ' ', s)]: [prev] tells that a space was just emitted. *)
Fixpoint sub_spaces (prev : bool) (s : string) : string :=
  match s with
  | EmptyString => EmptyString
  | String c s' =>
      if is_char " "%char c then
        if prev then sub_spaces true s' else String c (sub_spaces true s')
      else String c (sub_spaces false s')
  end.

(** [re.sub('\n\n\n+', '\n\n', s)]: [n] counts the newlines of the current
    run; a run keeps its first two newlines. *)
Fixpoint sub_blank_lines (n : nat) (s : string) : string :=
  match s with
  | EmptyString => EmptyString
  | String c s' =>
      if is_char "010"%char c then
        if (n <? 2)%nat then String c (sub_blank_lines (S n) s')
        else sub_blank_lines (S n) s'
      else String c (sub_blank_lines 0 s')
  end.

(** [sep.join(l)] *)
Fixpoint join (sep : string) (l : list string) : string :=
  match l with
  | [] => EmptyString
  | [x] => x
  | x :: l' => x +:+ sep +:+ join sep l'
  end.

(** [str(b)] for a bool *)
Definition str_bool (b : bool) : string := if b then "True" else "False".

(** [x or d] for a string-or-None [x] and a string [d]. *)
Definition or_str (x : option string) (d : string) : string :=
  match x with
  | Some (String c s) => String c s
  | _ => d
  end.

End PyStr.

(** ** [_naming._make_name_unique_by_adding_index] *)

Module Naming.

(** The candidate [name + delimiter + str(i)]. *)
Definition indexed_name (name delimiter : string) (i : nat) : string :=
  name +:+ delimiter +:+ pretty i.

(** The search [for i in range(2, ...)]: the first candidate that is not in
    the collection.  [fuel] bounds the number of candidates that are
    tested; the last one is returned untested, as the loop does on
    exhaustion. *)
Fixpoint first_free_index (name delimiter : string) (collection : gset string)
    (fuel i : nat) : string :=
  let unique_name := indexed_name name delimiter i in
  match fuel with
  | 0 => unique_name
  | S fuel' =>
      if decide (unique_name ∈ collection)
      then first_free_index name delimiter collection fuel' (S i)
      else unique_name
  end.

(** Modelled from the spec: [_make_name_unique_by_adding_index] lives in
    [_naming.py], which is not part of the sources at hand.  The spec calls
    it collision resolution, a deterministic renaming by stable suffixing
    applied when a name is already used in its namespace: a free name is
    kept, a taken one gets the delimiter and the first index, counted from
    2, whose candidate is free.  A collection of [n] names cannot hold the
    [n + 1] candidates [2 .. n + 2], so [n] tests are enough. *)
Definition _make_name_unique_by_adding_index
    (name : string) (collection : gset string) (delimiter : string) : string :=
  if decide (name ∈ collection)
  then first_free_index name delimiter collection (size collection) 2
  else name.

End Naming.

(** ** The structures of [_structures.py] that the module builds *)

Module Structures.

(** The six annotation classes [InputPath] ... [OutputBinaryFile] of the
    module; [_passing_style] holds one of them, or [None] for data passed
    by value (inputs) or returned by the function (outputs). *)
Inductive PassingStyle : Type :=
| InputPath
| InputTextFile
| InputBinaryFile
| OutputPath
| OutputTextFile
| OutputBinaryFile.

#[global] Instance PassingStyle_eq_dec : EqDecision PassingStyle.
Proof. solve_decision. Defined.

(** [InputSpec], with the private attributes the module attaches to it.
    [optional] is [False] unless set. *)
Record InputSpec : Type := mkInputSpec {
  input_name : string;
  input_type : option string;
  input_default : option string;
  input_optional : bool;
  input_passing_style : option PassingStyle;
  input_parameter_name : string;
}.

(** [OutputSpec]; [_parameter_name] is set for outputs that come from a
    parameter, [_return_tuple_field_name] for the fields of a NamedTuple. *)
Record OutputSpec : Type := mkOutputSpec {
  output_name : string;
  output_type : option string;
  output_passing_style : option PassingStyle;
  output_parameter_name : option string;
  output_return_tuple_field_name : option string;
}.

(** The items of a command line: plain strings and placeholders.
    [IfPlaceholder] stands for
    [IfPlaceholder(IfPlaceholderStructure(condition, then_value))]. *)
#[warnings="-register-all"] Inductive ArgumentType : Type :=
| Str (s : string)
| InputValuePlaceholder (input_name : string)
| InputPathPlaceholder (input_name : string)
| OutputPathPlaceholder (output_name : string)
| IsPresentPlaceholder (input_name : string)
| IfPlaceholder (condition : ArgumentType) (then_value : list ArgumentType).

Record ContainerSpec : Type := mkContainerSpec {
  image : string;
  command : list ArgumentType;
  args : list ArgumentType;
}.

Record ComponentSpec : Type := mkComponentSpec {
  name : string;
  description : option string;
  inputs : list InputSpec;
  outputs : list OutputSpec;
  implementation : option ContainerSpec;
}.

End Structures.

(** ** The module [_python_op.py] *)

Module PythonOp.
Import PyStr Naming Structures.

(** *** Exceptions *)

Inductive Exception : Type :=
| ValueError (msg : string)
| IndexError (msg : string)
| AttributeError (msg : string).

Inductive Result (A : Type) : Type :=
| Ok (a : A)
| Raise (e : Exception).
Arguments Ok {A} a.
Arguments Raise {A} e.

#[global] Instance Result_bind : MBind Result :=
  fun A B k r =>
    match r with
    | Ok a => k a
    | Raise e => Raise e
    end.

#[global] Instance Result_ret : MRet Result := fun A a => Ok a.

(** *** What [inspect] shows of a function *)

(** An annotation other than one of the six passing-style markers.
    [AnnType] is a class, known by its identity and its [__name__];
    [AnnObject] is any other object, with its truth value and [str()]. *)
Inductive Annotation : Type :=
| AnnNone
| AnnEmpty
| AnnType (qualname : string) (type__name__ : string)
| AnnForwardRef (__forward_arg__ : string)
| AnnStr (s : string)
| AnnObject (truthy : bool) (str : string).

(** A parameter annotation: plain, or an instance of a marker class with
    its [type] attribute. *)
Inductive ParameterAnnotation : Type :=
| Plain (a : Annotation)
| Marker (style : PassingStyle) (type : Annotation).

(** [parameter.default]: [inspect.Parameter.empty], [None], or a value,
    which this module only hands to [serialize_value]. *)
Inductive ParameterDefault : Type :=
| DefaultEmpty
| DefaultNone
| DefaultValue (v : string).

#[global] Instance ParameterDefault_eq_dec : EqDecision ParameterDefault.
Proof. solve_decision. Defined.

Record FuncParameter : Type := mkParameter {
  parameter_name : string;
  parameter_annotation : ParameterAnnotation;
  parameter_default : ParameterDefault;
}.

(** [signature.return_annotation]: a NamedTuple class (it has [_fields],
    and on older interpreters [_field_types]) or anything else. *)
Inductive ReturnAnnotation : Type :=
| ReturnPlain (a : Annotation)
| ReturnNamedTuple (_fields : list string)
    (_field_types : option (gmap string Annotation)).

Record Function : Type := mkFunction {
  __name__ : string;
  __doc__ : option string;
  __module__ : string;
  parameters : list FuncParameter;
  return_annotation : ReturnAnnotation;
  _component_human_name : option string;
  _component_description : option string;
  _component_base_image : option string;
  (** [inspect.getsourcelines(func)], each line with its newline *)
  getsourcelines : list string;
}.

(** *** Collaborators *)

(** A key of [type_to_type_name]: a type object or a type name. *)
Inductive TypeKey : Type :=
| KeyType (qualname : string)
| KeyName (type_name : string).

Record Serializer : Type := mkSerializer {
  serializer__name__ : string;
  serializer__module__ : option string;
  serializer_getsource : string;
}.

(** The tables and the function imported from [_data_passing]. *)
Record DataPassing : Type := mkDataPassing {
  type_to_type_name : TypeKey -> option string;
  type_name_to_deserializer : string -> option (string * option string);
  type_name_to_serializer : string -> option Serializer;
  serialize_value : string -> option string -> string;
}.

(** [sys.version_info] *)
Record VersionInfo : Type := mkVersionInfo {
  major : nat;
  minor : nat;
  micro : nat;
  releaselevel : string;
  serial : nat;
}.

#[global] Instance VersionInfo_eq_dec : EqDecision VersionInfo.
Proof. solve_decision. Defined.

(** The value of the module global [_default_base_image]: an image name or
    a factory that returns one. *)
Inductive BaseImage : Type :=
| ImageName (image : string)
| ImageFactory (factory : unit -> string).

(** The interpreter that runs the module: builtins, libraries and process
    state.  [set_to_list] is [list(s)] for a set of strings, whose order
    CPython derives from the strings' hashes. *)
Record Interpreter : Type := mkInterpreter {
  repr : string -> string;
  set_to_list : gset string -> list string;
  sys_version_info : VersionInfo;
  _default_base_image : BaseImage;
  cloudpickle_dumps_b64 : Function -> list string -> string;
  (** [_module_is_builtin_or_standard], which looks at
      [sys.builtin_module_names] and at the files of the standard library *)
  _module_is_builtin_or_standard : string -> bool;
}.

Definition get_default_base_image (py : Interpreter) : BaseImage :=
  _default_base_image py.

Definition set_default_base_image (image_or_factory : BaseImage)
    (py : Interpreter) : Interpreter :=
  {| repr := repr py;
     set_to_list := set_to_list py;
     sys_version_info := sys_version_info py;
     _default_base_image := image_or_factory;
     cloudpickle_dumps_b64 := cloudpickle_dumps_b64 py;
     _module_is_builtin_or_standard := _module_is_builtin_or_standard py |}.

Definition _python_function_name_to_component_name (name : string) : string :=
  capitalize (strip (is_char " ") (sub_spaces false (replace "_" " " name))).

(** *** Source text that [inspect.getsource] returns for the module's own
    classes and helpers *)

Definition InputPath_source : string :=
"class InputPath:
    '''When creating component from function, InputPath should be used as function parameter annotation to tell the system to pass the *data file path* to the function instead of passing the actual data.'''
    def __init__(self, type=None):
        self.type = type
".

Definition InputTextFile_source : string :=
"class InputTextFile:
    '''When creating component from function, InputTextFile should be used as function parameter annotation to tell the system to pass the *text data stream* object (`io.TextIOWrapper`) to the function instead of passing the actual data.'''
    def __init__(self, type=None):
        self.type = type
".

Definition InputBinaryFile_source : string :=
"class InputBinaryFile:
    '''When creating component from function, InputBinaryFile should be used as function parameter annotation to tell the system to pass the *binary data stream* object (`io.BytesIO`) to the function instead of passing the actual data.'''
    def __init__(self, type=None):
        self.type = type
".

Definition OutputPath_source : string :=
"class OutputPath:
    '''When creating component from function, OutputPath should be used as function parameter annotation to tell the system that the function wants to output data by writing it into a file with the given path instead of returning the data from the function.'''
    def __init__(self, type=None):
        self.type = type
".

Definition OutputTextFile_source : string :=
"class OutputTextFile:
    '''When creating component from function, OutputTextFile should be used as function parameter annotation to tell the system that the function wants to output data by writing it into a given text file stream (`io.TextIOWrapper`) instead of returning the data from the function.'''
    def __init__(self, type=None):
        self.type = type
".

Definition OutputBinaryFile_source : string :=
"class OutputBinaryFile:
    '''When creating component from function, OutputBinaryFile should be used as function parameter annotation to tell the system that the function wants to output data by writing it into a given binary file stream (`io.BytesIO`) instead of returning the data from the function.'''
    def __init__(self, type=None):
        self.type = type
".

Definition _make_parent_dirs_and_return_path_source : string :=
"def _make_parent_dirs_and_return_path(file_path: str):
    import os
    os.makedirs(os.path.dirname(file_path), exist_ok=True)
    return file_path
".

Definition _parent_dirs_maker_that_returns_open_file_source : string :=
"def _parent_dirs_maker_that_returns_open_file(mode: str, encoding: str = None):
    def make_parent_dirs_and_return_path(file_path: str):
        import os
        os.makedirs(os.path.dirname(file_path), exist_ok=True)
        return open(file_path, mode=mode, encoding=encoding)
    return make_parent_dirs_and_return_path
".

Definition cloudpickle_import_code : string :=
"import sys
try:
    import cloudpickle as _cloudpickle
except ImportError:
    import subprocess
    try:
        print(" +:+ dq +:+ "cloudpickle is not installed. Installing it globally" +:+ dq +:+ ", file=sys.stderr)
        subprocess.run([sys.executable, " +:+ dq +:+ "-m" +:+ dq +:+ ", " +:+ dq +:+ "pip" +:+ dq +:+ ", " +:+ dq +:+ "install" +:+ dq +:+ ", " +:+ dq +:+ "cloudpickle==1.1.1" +:+ dq +:+ ", " +:+ dq +:+ "--quiet" +:+ dq +:+ "], env={" +:+ dq +:+ "PIP_DISABLE_PIP_VERSION_CHECK" +:+ dq +:+ ": " +:+ dq +:+ "1" +:+ dq +:+ "}, check=True)
        print(" +:+ dq +:+ "Installed cloudpickle globally" +:+ dq +:+ ", file=sys.stderr)
    except:
        print(" +:+ dq +:+ "Failed to install cloudpickle globally. Installing for the current user." +:+ dq +:+ ", file=sys.stderr)
        subprocess.run([sys.executable, " +:+ dq +:+ "-m" +:+ dq +:+ ", " +:+ dq +:+ "pip" +:+ dq +:+ ", " +:+ dq +:+ "install" +:+ dq +:+ ", " +:+ dq +:+ "cloudpickle==1.1.1" +:+ dq +:+ ", " +:+ dq +:+ "--user" +:+ dq +:+ ", " +:+ dq +:+ "--quiet" +:+ dq +:+ "], env={" +:+ dq +:+ "PIP_DISABLE_PIP_VERSION_CHECK" +:+ dq +:+ ": " +:+ dq +:+ "1" +:+ dq +:+ "}, check=True)
        print(" +:+ dq +:+ "Installed cloudpickle for the current user" +:+ dq +:+ ", file=sys.stderr)
        # Enable loading from user-installed package directory. Python does not add it to sys.path if it was empty at start. Running pip does not refresh `sys.path`.
        import site
        sys.path.append(site.getusersitepackages())
    import cloudpickle as _cloudpickle
    print(" +:+ dq +:+ "cloudpickle loaded successfully after installing." +:+ dq +:+ ", file=sys.stderr)
".

Definition getsource_passing_style (passing_style : PassingStyle) : string :=
  match passing_style with
  | InputPath => InputPath_source
  | InputTextFile => InputTextFile_source
  | InputBinaryFile => InputBinaryFile_source
  | OutputPath => OutputPath_source
  | OutputTextFile => OutputTextFile_source
  | OutputBinaryFile => OutputBinaryFile_source
  end.

(** *** Capturing the function's code *)

(** [repr(tuple(sys.version_info))] *)
Definition repr_version_info (py : Interpreter) (v : VersionInfo) : string :=
  "(" +:+ pretty (major v) +:+ ", " +:+ pretty (minor v) +:+ ", "
    +:+ pretty (micro v) +:+ ", " +:+ repr py (releaselevel v) +:+ ", "
    +:+ pretty (serial v) +:+ ")".

(** The second half of [function_loading_code], after [.format]. *)
Definition version_check_and_load_code (func_name func_pickle
    pickler_python_version : string) : string :=
  "
pickler_python_version = " +:+ pickler_python_version +:+ "
current_python_version = tuple(sys.version_info)
if (
    current_python_version[0] != pickler_python_version[0] or
    current_python_version[1] < pickler_python_version[1] or
    current_python_version[0] == 3 and ((pickler_python_version[1] < 6) != (current_python_version[1] < 6))
    ):
    raise RuntimeError(" +:+ dq +:+ "Incompatible python versions: " +:+ dq +:+ " + str(current_python_version) + " +:+ dq +:+ " instead of " +:+ dq +:+ " + str(pickler_python_version))

if current_python_version != pickler_python_version:
    print(" +:+ dq +:+ "Warning!: Different python versions. The code may crash! Current environment python version: " +:+ dq +:+ " + str(current_python_version) + " +:+ dq +:+ ". Component code python version: " +:+ dq +:+ " + str(pickler_python_version), file=sys.stderr)

import base64
import pickle

" +:+ func_name +:+ " = pickle.loads(base64.b64decode(" +:+ func_pickle +:+ "))
".

(** The pickling itself, with its temporary changes to [sys.modules] and to
    [func.__signature__] that the [finally] block undoes, is the
    interpreter's [cloudpickle_dumps_b64], which gives [repr(func_pickle)]. *)
Definition _capture_function_code_using_cloudpickle (py : Interpreter)
    (func : Function) (modules_to_capture : option (list string)) : string :=
  let modules_to_capture :=
    match modules_to_capture with
    | None => [__module__ func]
    | Some l => l
    end in
  let func_pickle := cloudpickle_dumps_b64 py func modules_to_capture in
  cloudpickle_import_code
    +:+ version_check_and_load_code (__name__ func) func_pickle
          (repr_version_info py (sys_version_info py)).

(** What the version check of the generated loader does when it runs on an
    interpreter of version [current_python_version]: the [if] of
    [version_check_and_load_code] raises [RuntimeError], otherwise a
    difference between the two version tuples prints a warning. *)
Inductive LoaderOutcome : Type :=
| RaisesRuntimeError
| PrintsWarning
| Silent.

Definition loader_version_check
    (pickler_python_version current_python_version : VersionInfo)
    : LoaderOutcome :=
  if negb (major current_python_version =? major pickler_python_version)%nat
     || (minor current_python_version <? minor pickler_python_version)%nat
     || ((major current_python_version =? 3)%nat
         && negb (Bool.eqb (minor pickler_python_version <? 6)%nat
                           (minor current_python_version <? 6)%nat))
  then RaisesRuntimeError
  else if decide (current_python_version <> pickler_python_version)
       then PrintsWarning
       else Silent.

(** [while func_code_lines[0].lstrip().startswith('@'): del func_code_lines[0]] *)
Fixpoint drop_decorator_lines (func_code_lines : list string)
    : Result (list string) :=
  match func_code_lines with
  | [] => Raise (IndexError "list index out of range")
  | line :: rest =>
      if startswith "@" (lstrip is_space line)
      then drop_decorator_lines rest
      else Ok func_code_lines
  end.

Definition has_fields (return_ann : ReturnAnnotation) : bool :=
  match return_ann with
  | ReturnNamedTuple _ _ => true
  | ReturnPlain _ => false
  end.

Definition _capture_function_code_using_source_copy (func : Function)
    : Result string :=
  func_code_lines ← drop_decorator_lines (getsourcelines func);
  first_line ← match func_code_lines with
               | [] => Raise (IndexError "list index out of range")
               | first_line :: _ => Ok first_line
               end;
  let indent :=
    String.length first_line - String.length (lstrip is_space first_line) in
  let func_code_lines := drop_first indent <$> func_code_lines in
  let func_code_lines :=
    if has_fields (return_annotation func)
    then ("from typing import NamedTuple" +:+ nl) :: nl :: func_code_lines
    else func_code_lines in
  Ok (join "" func_code_lines).

(** *** Signature analysis *)

(** The inner function [annotation_to_type_struct]. *)
Definition annotation_to_type_struct (dp : DataPassing)
    (annotation : Annotation) : option string :=
  let by_name (type_name : string) :=
    match type_to_type_name dp (KeyName type_name) with
    | Some canonical => Some canonical
    | None => Some type_name
    end in
  match annotation with
  | AnnNone | AnnEmpty => None
  | AnnType qualname type_name =>
      match type_to_type_name dp (KeyType qualname) with
      | Some canonical => Some canonical
      | None => by_name type_name
      end
  | AnnForwardRef forward_arg => by_name forward_arg
  | AnnStr EmptyString => None
  | AnnStr s => by_name s
  | AnnObject false _ => None
  | AnnObject true s => by_name s
  end.

(** [isinstance(annotation, classes)] for the marker classes. *)
Definition isinstance (annotation : ParameterAnnotation)
    (classes : list PassingStyle) : bool :=
  match annotation with
  | Marker style _ => bool_decide (style ∈ classes)
  | Plain _ => false
  end.

(** The local variables of [_extract_component_interface] that the two
    loops update. *)
Record Locals : Type := mkLocals {
  l_inputs : list InputSpec;
  l_outputs : list OutputSpec;
  input_names : gset string;
  output_names : gset string;
}.

Definition single_output_name_const : string := "Output".

(** The removal of the [_path] and [_file] suffixes from the name of a
    parameter annotated with a marker. *)
Definition strip_file_suffixes (annotation : ParameterAnnotation)
    (io_name : string) : string :=
  let io_name :=
    if isinstance annotation [InputPath; OutputPath]
       && endswith io_name "_path"
    then drop_last (String.length "_path") io_name
    else io_name in
  let io_name :=
    if endswith io_name "_file"
    then drop_last (String.length "_file") io_name
    else io_name in
  io_name.

Definition file_default_error : Exception :=
  ValueError "Default values for file inputs/outputs are not supported. If you need them for some reason, please create an issue and write about your usage scenario.".

(** The body of [for parameter in parameters]. *)
Definition extract_parameter (dp : DataPassing) (st : Locals)
    (parameter : FuncParameter) : Result Locals :=
  let annotation := parameter_annotation parameter in
  '(passing_style, inner_annotation, io_name) ←
    match annotation with
    | Marker style type =>
        if decide (parameter_default parameter <> DefaultEmpty)
        then Raise file_default_error
        else Ok (Some style, type,
                 strip_file_suffixes annotation (parameter_name parameter))
    | Plain a => Ok (None, a, parameter_name parameter)
    end;
  let type_struct := annotation_to_type_struct dp inner_annotation in
  if isinstance annotation [OutputPath; OutputTextFile; OutputBinaryFile]
  then
    let io_name :=
      _make_name_unique_by_adding_index io_name (output_names st) "_" in
    let output_spec :=
      {| output_name := io_name;
         output_type := type_struct;
         output_passing_style := passing_style;
         output_parameter_name := Some (parameter_name parameter);
         output_return_tuple_field_name := None |} in
    Ok {| l_inputs := l_inputs st;
          l_outputs := l_outputs st ++ [output_spec];
          input_names := input_names st;
          output_names := {[io_name]} ∪ output_names st |}
  else
    let io_name :=
      _make_name_unique_by_adding_index io_name (input_names st) "_" in
    let '(optional, default) :=
      match parameter_default parameter with
      | DefaultEmpty => (false, None)
      | DefaultNone => (true, None)
      | DefaultValue v => (true, Some (serialize_value dp v type_struct))
      end in
    let input_spec :=
      {| input_name := io_name;
         input_type := type_struct;
         input_default := default;
         input_optional := optional;
         input_passing_style := passing_style;
         input_parameter_name := parameter_name parameter |} in
    Ok {| l_inputs := l_inputs st ++ [input_spec];
          l_outputs := l_outputs st;
          input_names := {[io_name]} ∪ input_names st;
          output_names := output_names st |}.

(** [for parameter in parameters] *)
Fixpoint extract_parameters (dp : DataPassing) (st : Locals)
    (parameters : list FuncParameter) : Result Locals :=
  match parameters with
  | [] => Ok st
  | parameter :: rest =>
      st' ← extract_parameter dp st parameter;
      extract_parameters dp st' rest
  end.

(** The body of [for field_name in return_ann._fields]. *)
Definition extract_return_field (dp : DataPassing)
    (_field_types : option (gmap string Annotation)) (st : Locals)
    (field_name : string) : Locals :=
  let type_struct :=
    match _field_types with
    | Some field_types =>
        annotation_to_type_struct dp
          (default AnnNone (field_types !! field_name))
    | None => None
    end in
  let output_name :=
    _make_name_unique_by_adding_index field_name (output_names st) "_" in
  let output_spec :=
    {| output_name := output_name;
       output_type := type_struct;
       output_passing_style := None;
       output_parameter_name := None;
       output_return_tuple_field_name := Some field_name |} in
  {| l_inputs := l_inputs st;
     l_outputs := l_outputs st ++ [output_spec];
     input_names := input_names st;
     output_names := {[output_name]} ∪ output_names st |}.

(** The analysis of the return annotation. *)
Definition extract_return (dp : DataPassing) (st : Locals)
    (return_ann : ReturnAnnotation) : Locals :=
  match return_ann with
  | ReturnNamedTuple fields field_types =>
      foldl (extract_return_field dp field_types) st fields
  | ReturnPlain AnnNone => st
  | ReturnPlain AnnEmpty => st
  | ReturnPlain return_annotation =>
      let output_name :=
        _make_name_unique_by_adding_index single_output_name_const
          (output_names st) "_" in
      let type_struct := annotation_to_type_struct dp return_annotation in
      let output_spec :=
        {| output_name := output_name;
           output_type := type_struct;
           output_passing_style := None;
           output_parameter_name := None;
           output_return_tuple_field_name := None |} in
      {| l_inputs := l_inputs st;
         l_outputs := l_outputs st ++ [output_spec];
         input_names := input_names st;
         output_names := {[output_name]} ∪ output_names st |}
  end.

(** [x or y] for two string-or-None values. *)
Definition or_else (x y : option string) : option string :=
  match x with
  | Some (String c s) => x
  | _ => y
  end.

Definition _extract_component_interface (dp : DataPassing) (func : Function)
    : Result ComponentSpec :=
  let st := {| l_inputs := []; l_outputs := [];
               input_names := ∅; output_names := ∅ |} in
  st ← extract_parameters dp st (parameters func);
  let st := extract_return dp st (return_annotation func) in
  let component_name :=
    or_str (_component_human_name func)
           (_python_function_name_to_component_name (__name__ func)) in
  let description := or_else (_component_description func) (__doc__ func) in
  let description :=
    match description with
    | Some (String c d) => Some (strip is_space (String c d) +:+ nl)
    | _ => description
    end in
  Ok {| name := component_name;
        description := description;
        inputs := l_inputs st;
        outputs := l_outputs st;
        implementation := None |}.

(** *** Building the component *)

(** The keyword arguments of [_func_to_component_spec]. *)
Record Options : Type := mkOptions {
  extra_code : string;
  base_image : option string;
  packages_to_install : option (list string);
  modules_to_capture : option (list string);
  use_code_pickling : bool;
}.

Definition default_options : Options :=
  {| extra_code := ""; base_image := None; packages_to_install := None;
     modules_to_capture := None; use_code_pickling := false |}.

(** The first statement of [_func_to_component_spec], which settles
    [base_image].  The number next to the image counts the calls
    [base_image()] of the default image factory. *)
Definition resolve_base_image (py : Interpreter) (func : Function)
    (base_image : option string) : Result (string * nat) :=
  match _component_base_image func with
  | Some decorator_base_image =>
      match base_image with
      | Some explicit =>
          if decide (decorator_base_image <> explicit)
          then Raise (ValueError
                 ("base_image (" +:+ explicit
                  +:+ ") conflicts with the decorator-specified base image metadata ("
                  +:+ decorator_base_image +:+ ")"))
          else Ok (decorator_base_image, 0)
      | None => Ok (decorator_base_image, 0)
      end
  | None =>
      match base_image with
      | Some explicit => Ok (explicit, 0)
      | None =>
          match _default_base_image py with
          | ImageName image => Ok (image, 0)
          | ImageFactory factory => Ok (factory (), 1)
          end
      end
  end.

(** An element of [component_spec.inputs + file_outputs_...]. *)
Definition IOSpec : Type := InputSpec + OutputSpec.

Definition io_name (x : IOSpec) : string :=
  match x with inl i => input_name i | inr o => output_name o end.

Definition io_type (x : IOSpec) : option string :=
  match x with inl i => input_type i | inr o => output_type o end.

Definition io_passing_style (x : IOSpec) : option PassingStyle :=
  match x with
  | inl i => input_passing_style i
  | inr o => output_passing_style o
  end.

(** [input._parameter_name]; an output that comes from the return
    annotation has no such attribute. *)
Definition io_parameter_name (x : IOSpec) : Result string :=
  match x with
  | inl i => Ok (input_parameter_name i)
  | inr o =>
      match output_parameter_name o with
      | Some parameter_name => Ok parameter_name
      | None => Raise (AttributeError
                  "'OutputSpec' object has no attribute '_parameter_name'")
      end
  end.

(** [isinstance(input, OutputSpec) or not input.optional] *)
Definition io_is_required (x : IOSpec) : bool :=
  match x with inl i => negb (input_optional i) | inr _ => true end.

(** The inner functions, with the set they add to passed in and out. *)
Definition get_deserializer_and_register_definitions (dp : DataPassing)
    (type_name : option string) (definitions : gset string)
    : string * gset string :=
  match type_name ≫= type_name_to_deserializer dp with
  | Some (deserializer_code_str, Some (String c d)) =>
      (deserializer_code_str, {[String c d]} ∪ definitions)
  | Some (deserializer_code_str, _) => (deserializer_code_str, definitions)
  | None => ("str", definitions)
  end.

(** The closing [raise NotImplementedError] of this function is for a style
    outside the six classes; [PassingStyle] has no such value. *)
Definition get_argparse_type_for_input_file
    (passing_style : option PassingStyle) (pre_func_definitions : gset string)
    : option string * gset string :=
  match passing_style with
  | None => (None, pre_func_definitions)
  | Some style =>
      let pre_func_definitions :=
        {[getsource_passing_style style]} ∪ pre_func_definitions in
      match style with
      | InputPath => (Some "str", pre_func_definitions)
      | InputTextFile =>
          (Some "argparse.FileType('rt')", pre_func_definitions)
      | InputBinaryFile =>
          (Some "argparse.FileType('rb')", pre_func_definitions)
      | OutputPath =>
          (Some "_make_parent_dirs_and_return_path",
           {[_make_parent_dirs_and_return_path_source]}
             ∪ pre_func_definitions)
      | OutputTextFile =>
          (Some ("_parent_dirs_maker_that_returns_open_file" +:+ "('wt')"),
           {[_parent_dirs_maker_that_returns_open_file_source]}
             ∪ pre_func_definitions)
      | OutputBinaryFile =>
          (Some ("_parent_dirs_maker_that_returns_open_file" +:+ "('wb')"),
           {[_parent_dirs_maker_that_returns_open_file_source]}
             ∪ pre_func_definitions)
      end
  end.

Definition get_serializer_and_register_definitions (py : Interpreter)
    (dp : DataPassing) (type_name : option string) (definitions : gset string)
    : string * gset string :=
  match type_name ≫= type_name_to_serializer dp with
  | Some serializer_func =>
      let definitions :=
        match serializer__module__ serializer_func with
        | Some module =>
            if _module_is_builtin_or_standard py module
            then definitions
            else {[serializer_getsource serializer_func]} ∪ definitions
        | None => definitions
        end in
      (serializer__name__ serializer_func, definitions)
  | None => ("str", definitions)
  end.

(** What the loop over the inputs and file outputs accumulates. *)
Record Scaffold : Type := mkScaffold {
  definitions : gset string;
  pre_func_definitions : gset string;
  arg_parse_code_lines : list string;
  arguments : list ArgumentType;
}.

Definition param_flag_of (x : IOSpec) : string :=
  "--" +:+ replace "_" "-" (io_name x).

(** The [_parser.add_argument(...)] line of one input or file output. *)
Definition add_argument_line (param_flag param_var param_type : string)
    (is_required : bool) : string :=
  "_parser.add_argument(" +:+ dq +:+ param_flag +:+ dq +:+ ", dest=" +:+ dq
    +:+ param_var +:+ dq +:+ ", type=" +:+ param_type +:+ ", required="
    +:+ str_bool is_required +:+ ", default=argparse.SUPPRESS)".

Definition input_styles : list PassingStyle :=
  [InputPath; InputTextFile; InputBinaryFile].
Definition output_styles : list PassingStyle :=
  [OutputPath; OutputTextFile; OutputBinaryFile].

Definition style_in (passing_style : option PassingStyle)
    (styles : list PassingStyle) : bool :=
  match passing_style with
  | Some style => bool_decide (style ∈ styles)
  | None => false
  end.

Definition arguments_for_input (x : IOSpec) : list ArgumentType :=
  let param_flag := param_flag_of x in
  if style_in (io_passing_style x) input_styles
  then [Str param_flag; InputPathPlaceholder (io_name x)]
  else if style_in (io_passing_style x) output_styles
  then [Str param_flag; OutputPathPlaceholder (io_name x)]
  else [Str param_flag; InputValuePlaceholder (io_name x)].

(** The body of
    [for input in component_spec.inputs + file_outputs_passed_using_func_parameters]. *)
Definition scaffold_input (dp : DataPassing) (st : Scaffold) (input : IOSpec)
    : Result Scaffold :=
  let param_flag := param_flag_of input in
  let is_required := io_is_required input in
  param_var ← io_parameter_name input;
  let '(argparse_type, pre_func_definitions) :=
    get_argparse_type_for_input_file (io_passing_style input)
      (pre_func_definitions st) in
  let '(param_type, definitions) :=
    match argparse_type with
    | Some param_type => (param_type, definitions st)
    | None =>
        get_deserializer_and_register_definitions dp (io_type input)
          (definitions st)
    end in
  let line := add_argument_line param_flag param_var param_type is_required in
  let arguments_for_input := arguments_for_input input in
  Ok {| definitions := definitions;
        pre_func_definitions := pre_func_definitions;
        arg_parse_code_lines := arg_parse_code_lines st ++ [line];
        arguments :=
          if is_required
          then arguments st ++ arguments_for_input
          else arguments st
                 ++ [IfPlaceholder (IsPresentPlaceholder (io_name input))
                       arguments_for_input] |}.

Fixpoint scaffold_inputs (dp : DataPassing) (st : Scaffold)
    (l : list IOSpec) : Result Scaffold :=
  match l with
  | [] => Ok st
  | input :: rest =>
      st' ← scaffold_input dp st input;
      scaffold_inputs dp st' rest
  end.

Definition outputs_passed_through_func_return_tuple
    (component_spec : ComponentSpec) : list OutputSpec :=
  filter (fun output => output_passing_style output = None)
    (outputs component_spec).

Definition file_outputs_passed_using_func_parameters
    (component_spec : ComponentSpec) : list OutputSpec :=
  filter (fun output => output_passing_style output <> None)
    (outputs component_spec).

Definition output_paths_line (nargs : nat) : string :=
  "_parser.add_argument(" +:+ dq +:+ "----output-paths" +:+ dq +:+ ", dest="
    +:+ dq +:+ "_output_paths" +:+ dq +:+ ", type=str, nargs="
    +:+ pretty nargs +:+ ")".

(** [if outputs_passed_through_func_return_tuple: ...] *)
Definition scaffold_return_outputs (component_spec : ComponentSpec)
    (st : Scaffold) : Scaffold :=
  match outputs_passed_through_func_return_tuple component_spec with
  | [] => st
  | _ :: _ =>
      let param_flag := "----output-paths" in
      let line := output_paths_line (length (outputs component_spec)) in
      {| definitions := definitions st;
         pre_func_definitions := pre_func_definitions st;
         arg_parse_code_lines := arg_parse_code_lines st ++ [line];
         arguments :=
           (arguments st ++ [Str param_flag])
             ++ ((fun output => OutputPathPlaceholder (output_name output))
                   <$> outputs component_spec) |}
  end.

(** [for output in outputs_passed_through_func_return_tuple: ...] *)
Fixpoint output_serializers (py : Interpreter) (dp : DataPassing)
    (return_outputs : list OutputSpec) (definitions : gset string)
    : list string * gset string :=
  match return_outputs with
  | [] => ([], definitions)
  | output :: rest =>
      let '(serializer_call_str, definitions) :=
        get_serializer_and_register_definitions py dp (output_type output)
          definitions in
      let '(strings, definitions) :=
        output_serializers py dp rest definitions in
      (serializer_call_str :: strings, definitions)
  end.

(** The template of [full_source], after [.format]. *)
Definition full_source_template (pre_func_code extra_code func_code
    arg_parse_code func_name output_serialization_code : string) : string :=
  pre_func_code +:+ "

" +:+ extra_code +:+ "

" +:+ func_code +:+ "

" +:+ arg_parse_code +:+ "

_outputs = " +:+ func_name +:+ "(" +:+ "**_parsed_args)

if not hasattr(_outputs, '__getitem__') or isinstance(_outputs, str):
    _outputs = [_outputs]

_output_serializers = [
    " +:+ output_serialization_code +:+ "
]

import os
for idx, output_file in enumerate(_output_files):
    try:
        os.makedirs(os.path.dirname(output_file))
    except OSError:
        pass
    with open(output_file, 'w') as f:
        f.write(_output_serializers[idx](_outputs[idx]))
".

Definition package_preinstallation_command (py : Interpreter)
    (packages_to_install : list string) : list ArgumentType :=
  match packages_to_install with
  | [] => []
  | _ :: _ =>
      let package_install_command_line :=
        "PIP_DISABLE_PIP_VERSION_CHECK=1 python3 -m pip install --quiet --no-warn-script-location "
          +:+ join " " (repr py <$> packages_to_install) in
      [Str "sh"; Str "-c";
       Str ("(" +:+ package_install_command_line +:+ " || "
            +:+ package_install_command_line +:+ " --user) && " +:+ dq
            +:+ "$0" +:+ dq +:+ " " +:+ dq +:+ "$@" +:+ dq)]
  end.

(** [arg_parse_code_lines] and [arguments] before the loop; the first
    [arguments] list of the function, built from all inputs and outputs, is
    replaced by [arguments = []] before it is used. *)
Definition initial_scaffold (py : Interpreter) (component_spec : ComponentSpec)
    : Scaffold :=
  {| definitions := ∅;
     pre_func_definitions := ∅;
     arg_parse_code_lines :=
       ["import argparse";
        "_parser = argparse.ArgumentParser(prog="
          +:+ repr py (name component_spec) +:+ ", description="
          +:+ repr py (or_str (description component_spec) "") +:+ ")"];
     arguments := [] |}.

(** [component_spec.inputs + file_outputs_passed_using_func_parameters] *)
Definition flagged_specs (component_spec : ComponentSpec) : list IOSpec :=
  (inl <$> inputs component_spec)
    ++ (inr <$> file_outputs_passed_using_func_parameters component_spec).

(** From [output_serialization_expression_strings = []] to the final
    [full_source]: the serializers, the two sets turned into lists, the
    template and the removal of consecutive blank lines. *)
Definition generate_full_source (py : Interpreter) (dp : DataPassing)
    (func : Function) (opts : Options) (component_spec : ComponentSpec)
    (func_code : string) (st : Scaffold) : string :=
  let '(output_serialization_expression_strings, definitions) :=
    output_serializers py dp
      (outputs_passed_through_func_return_tuple component_spec)
      (definitions st) in
  let pre_func_code := join nl (set_to_list py (pre_func_definitions st)) in
  let arg_parse_code_lines :=
    (set_to_list py definitions ++ arg_parse_code_lines st)%list in
  let arg_parse_code_lines :=
    (arg_parse_code_lines
       ++ ["_parsed_args = vars(_parser.parse_args())";
           "_output_files = _parsed_args.pop(" +:+ dq +:+ "_output_paths"
             +:+ dq +:+ ", [])"])%list in
  let full_source :=
    full_source_template pre_func_code (extra_code opts) func_code
      (join nl arg_parse_code_lines) (__name__ func)
      (join ("," +:+ nl +:+ "    ")
         output_serialization_expression_strings) in
  strip (is_char "010"%char) (sub_blank_lines 0 full_source) +:+ nl.

Definition capture_function_code (py : Interpreter) (func : Function)
    (opts : Options) : Result string :=
  if use_code_pickling opts
  then Ok (_capture_function_code_using_cloudpickle py func
             (modules_to_capture opts))
  else _capture_function_code_using_source_copy func.

Definition _func_to_component_spec (py : Interpreter) (dp : DataPassing)
    (func : Function) (opts : Options) : Result ComponentSpec :=
  '(base_image, _) ← resolve_base_image py func (base_image opts);
  let packages_to_install := default [] (packages_to_install opts) in
  component_spec ← _extract_component_interface dp func;
  func_code ← capture_function_code py func opts;
  st ← scaffold_inputs dp (initial_scaffold py component_spec)
         (flagged_specs component_spec);
  let st := scaffold_return_outputs component_spec st in
  let full_source :=
    generate_full_source py dp func opts component_spec func_code st in
  Ok {| name := name component_spec;
        description := description component_spec;
        inputs := inputs component_spec;
        outputs := outputs component_spec;
        implementation :=
          Some {| image := base_image;
                  command :=
                    package_preinstallation_command py packages_to_install
                      ++ [Str "python3"; Str "-u"; Str "-c"; Str full_source];
                  args := arguments st |} |}.

End PythonOp.

(** ** Vocabulary for the statements *)

Module Shape.
Import Naming Structures PythonOp.

(** The marker class of a parameter's annotation, if it has one. *)
Definition marker_style (p : FuncParameter) : option PassingStyle :=
  match parameter_annotation p with
  | Marker style _ => Some style
  | Plain _ => None
  end.

Definition is_output_parameter (p : FuncParameter) : bool :=
  style_in (marker_style p) output_styles.

Definition is_input_parameter (p : FuncParameter) : bool :=
  negb (is_output_parameter p).

Definition has_default (p : FuncParameter) : bool :=
  bool_decide (parameter_default p <> DefaultEmpty).

(** The parameters that become inputs and those that become outputs, in
    declaration order. *)
Definition input_parameters (ps : list FuncParameter) : list FuncParameter :=
  filter (fun p => is_output_parameter p = false) ps.

Definition output_parameters (ps : list FuncParameter) : list FuncParameter :=
  filter (fun p => is_output_parameter p = true) ps.

(** The name under which a parameter is shown before collision resolution. *)
Definition external_name (p : FuncParameter) : string :=
  match parameter_annotation p with
  | Marker _ _ =>
      strip_file_suffixes (parameter_annotation p) (parameter_name p)
  | Plain _ => parameter_name p
  end.

(** Collision resolution of a sequence of names, one after the other, each
    against the names used so far. *)
Fixpoint resolve_names (used : gset string) (names : list string)
    : list string :=
  match names with
  | [] => []
  | n :: rest =>
      let n' := _make_name_unique_by_adding_index n used "_" in
      n' :: resolve_names ({[n']} ∪ used) rest
  end.

(** The names that the return annotation contributes, before collision
    resolution. *)
Definition return_names (return_ann : ReturnAnnotation) : list string :=
  match return_ann with
  | ReturnNamedTuple fields _ => fields
  | ReturnPlain AnnNone | ReturnPlain AnnEmpty => []
  | ReturnPlain _ => [single_output_name_const]
  end.

(** An input descriptor made from parameter [p]. *)
Definition input_from_parameter (p : FuncParameter) (i : InputSpec) : Prop :=
  input_parameter_name i = parameter_name p
  ∧ input_passing_style i = marker_style p
  ∧ input_optional i = has_default p.

(** An output descriptor made from parameter [p]. *)
Definition output_from_parameter (p : FuncParameter) (o : OutputSpec) : Prop :=
  output_parameter_name o = Some (parameter_name p)
  ∧ output_passing_style o = marker_style p
  ∧ output_return_tuple_field_name o = None.

(** An output descriptor made from the return annotation; [field] is the
    NamedTuple field it stands for, if any. *)
Definition output_from_return (field : option string) (o : OutputSpec) : Prop :=
  output_passing_style o = None
  ∧ output_parameter_name o = None
  ∧ output_return_tuple_field_name o = field.

Definition return_fields (return_ann : ReturnAnnotation)
    : list (option string) :=
  match return_ann with
  | ReturnNamedTuple fields _ => Some <$> fields
  | ReturnPlain AnnNone | ReturnPlain AnnEmpty => []
  | ReturnPlain _ => [None]
  end.

(** The annotation of a parameter without its marker. *)
Definition inner_annotation (p : FuncParameter) : Annotation :=
  match parameter_annotation p with
  | Plain a => a
  | Marker _ type => type
  end.

(** The type and the default of the input made from parameter [p]. *)
Definition input_data_from_parameter (dp : DataPassing) (p : FuncParameter)
    (i : InputSpec) : Prop :=
  input_type i = annotation_to_type_struct dp (inner_annotation p)
  ∧ input_default i
    = match parameter_default p with
      | DefaultValue v => Some (serialize_value dp v (input_type i))
      | _ => None
      end.

(** [runs_le p k n s]: after [n] characters that satisfy [p], the text [s]
    never brings a run of such characters to more than [k]. *)
Fixpoint runs_le (p : ascii → bool) (k n : nat) (s : string) : bool :=
  match s with
  | EmptyString => true
  | String c s' =>
      if p c then (S n <=? k)%nat && runs_le p k (S n) s'
      else runs_le p k 0 s'
  end.

(** The first, the last and all characters of a text. *)
Definition starts_with_char (p : ascii → bool) (s : string) : bool :=
  match s with
  | EmptyString => false
  | String c _ => p c
  end.

Fixpoint ends_with_char (p : ascii → bool) (s : string) : bool :=
  match s with
  | EmptyString => false
  | String c EmptyString => p c
  | String _ s' => ends_with_char p s'
  end.

Fixpoint all_chars (p : ascii → bool) (s : string) : bool :=
  match s with
  | EmptyString => true
  | String c s' => p c && all_chars p s'
  end.

Definition is_newline : ascii → bool := PyStr.is_char "010"%char.
Definition is_blank : ascii → bool := PyStr.is_char " "%char.
Definition not_underscore (c : ascii) : bool := negb (PyStr.is_char "_"%char c).

Definition not_newline (c : ascii) : bool := negb (is_newline c).

(** A character of the ASCII range. *)
Definition is_ascii (c : ascii) : bool := (nat_of_ascii c <? 128)%nat.

(** [part] occurs in [whole] as a contiguous piece of text. *)
Definition occurs_in (part whole : string) : Prop :=
  ∃ before after, whole = before +:+ part +:+ after.

(** A source line that holds a decorator. *)
Definition is_decorator_line (line : string) : bool :=
  PyStr.startswith "@" (PyStr.lstrip PyStr.is_space line).

(** The flag of a descriptor: two dashes and its name in kebab case. *)
Definition flag_of (x : IOSpec) : ArgumentType :=
  Str ("--" +:+ PyStr.replace "_" "-" (io_name x)).

(** The placeholder of a descriptor: the path of the input for the three
    input markers, the path of the output for the three output markers, the
    value of the input otherwise. *)
Definition placeholder_of (x : IOSpec) : ArgumentType :=
  match io_passing_style x with
  | None => InputValuePlaceholder (io_name x)
  | Some (InputPath | InputTextFile | InputBinaryFile) =>
      InputPathPlaceholder (io_name x)
  | Some (OutputPath | OutputTextFile | OutputBinaryFile) =>
      OutputPathPlaceholder (io_name x)
  end.

(** What a descriptor contributes to the args: its flag and placeholder,
    bare when it is required and under a presence guard when optional. *)
Definition template_item (x : IOSpec) : list ArgumentType :=
  if io_is_required x
  then [flag_of x; placeholder_of x]
  else [IfPlaceholder (IsPresentPlaceholder (io_name x))
          [flag_of x; placeholder_of x]].

(** The flag of a name: two dashes and the name with hyphens for
    underscores. *)
Definition kebab_flag (name : string) : ArgumentType :=
  Str ("--" +:+ PyStr.replace "_" "-" name).

(** The placeholder of an input, by its passing style. *)
Definition input_placeholder (i : InputSpec) : ArgumentType :=
  match input_passing_style i with
  | None => InputValuePlaceholder (input_name i)
  | Some (InputPath | InputTextFile | InputBinaryFile) =>
      InputPathPlaceholder (input_name i)
  | Some (OutputPath | OutputTextFile | OutputBinaryFile) =>
      OutputPathPlaceholder (input_name i)
  end.

(** What an input contributes to the args: its flag and placeholder, bare
    for a required input and under a presence guard for an optional one. *)
Definition input_item (i : InputSpec) : list ArgumentType :=
  if input_optional i
  then [IfPlaceholder (IsPresentPlaceholder (input_name i))
          [kebab_flag (input_name i); input_placeholder i]]
  else [kebab_flag (input_name i); input_placeholder i].

(** What a file output contributes: its flag and the path of the output. *)
Definition file_output_item (o : OutputSpec) : list ArgumentType :=
  [kebab_flag (output_name o); OutputPathPlaceholder (output_name o)].

(** What the function appends to the args after the flagged descriptors. *)
Definition output_paths_block (component_spec : ComponentSpec)
    : list ArgumentType :=
  match outputs_passed_through_func_return_tuple component_spec with
  | [] => []
  | _ :: _ =>
      Str "----output-paths"
        :: ((fun output => OutputPathPlaceholder (output_name output))
              <$> outputs component_spec)
  end.

(** The image that the precedence rule selects: the explicit one, else the
    one attached to the function, else the process-wide default. *)
Definition effective_image (py : Interpreter) (func : Function)
    (opts : Options) : string :=
  match base_image opts, _component_base_image func with
  | Some explicit, _ => explicit
  | None, Some attached => attached
  | None, None =>
      match _default_base_image py with
      | ImageName image => image
      | ImageFactory factory => factory ()
      end
  end.

(** An explicit image and a different image attached to the function. *)
Definition image_conflict (func : Function) (opts : Options) : bool :=
  match base_image opts, _component_base_image func with
  | Some explicit, Some attached => bool_decide (attached <> explicit)
  | _, _ => false
  end.

(** The default image is asked for only when no image is given with the
    call nor attached to the function; a factory is then called once. *)
Definition default_factory_calls (py : Interpreter) (func : Function)
    (opts : Options) : nat :=
  match base_image opts, _component_base_image func, _default_base_image py with
  | None, None, ImageFactory _ => 1
  | _, _, _ => 0
  end.

(** A version before 3.6. *)
Definition pre_3_6 (v : VersionInfo) : bool :=
  (major v <? 3)%nat || ((major v =? 3)%nat && (minor v <? 6)%nat).

(** Two interpreters that differ at most in the order in which they list
    the elements of a set. *)
Definition same_but_set_order (py1 py2 : Interpreter) : Prop :=
  repr py1 = repr py2
  ∧ sys_version_info py1 = sys_version_info py2
  ∧ _default_base_image py1 = _default_base_image py2
  ∧ cloudpickle_dumps_b64 py1 = cloudpickle_dumps_b64 py2
  ∧ _module_is_builtin_or_standard py1 = _module_is_builtin_or_standard py2.

(** [list(s)] lists the elements of [s], each once, in some order. *)
Definition lists_elements (py : Interpreter) : Prop :=
  ∀ s : gset string, set_to_list py s ≡ₚ elements s.

(** The program that a component runs: the last item of its command. *)
Definition program_text (spec : ComponentSpec) : option ArgumentType :=
  impl ← implementation spec; last (command impl).

Definition spec_args (spec : ComponentSpec) : list ArgumentType :=
  match implementation spec with
  | Some impl => args impl
  | None => []
  end.

End Shape.

(** ** Sample interpreters and functions *)

Module Samples.
Import PyStr Structures PythonOp.

(** An interpreter whose sets list their elements in the order of
    [elements]; Python 3.7.4, the default image of the module. *)
Definition py_sample : Interpreter :=
  {| repr := fun s => "'" +:+ s +:+ "'";
     set_to_list := elements;
     sys_version_info := mkVersionInfo 3 7 4 "final" 0;
     _default_base_image := ImageName "tensorflow/tensorflow:1.13.2-py3";
     cloudpickle_dumps_b64 := fun _ _ => "b'gASV'";
     _module_is_builtin_or_standard := fun _ => true |}.

(** The same interpreter with another hash seed: its sets list their
    elements in the opposite order. *)
Definition py_reversed : Interpreter :=
  {| repr := repr py_sample;
     set_to_list := fun s => reverse (elements s);
     sys_version_info := sys_version_info py_sample;
     _default_base_image := _default_base_image py_sample;
     cloudpickle_dumps_b64 := cloudpickle_dumps_b64 py_sample;
     _module_is_builtin_or_standard :=
       _module_is_builtin_or_standard py_sample |}.

Definition dp_sample : DataPassing :=
  {| type_to_type_name :=
       fun key =>
         match key with
         | KeyType "builtins.str" => Some "String"
         | KeyType "builtins.int" => Some "Integer"
         | KeyType "builtins.float" => Some "Float"
         | _ => None
         end;
     type_name_to_deserializer :=
       fun type_name =>
         match type_name with
         | "Integer" => Some ("int", None)
         | "Float" => Some ("float", None)
         | _ => None
         end;
     type_name_to_serializer := fun _ => None;
     serialize_value := fun v _ => v |}.

Definition t_str : Annotation := AnnType "builtins.str" "str".
Definition t_int : Annotation := AnnType "builtins.int" "int".
Definition t_float : Annotation := AnnType "builtins.float" "float".

Definition def_function (fname : string) (ps : list FuncParameter)
    (ret : ReturnAnnotation) (lines : list string) : Function :=
  {| __name__ := fname; __doc__ := None; __module__ := "__main__";
     parameters := ps; return_annotation := ret;
     _component_human_name := None; _component_description := None;
     _component_base_image := None;
     getsourcelines := (fun l => l +:+ nl) <$> lines |}.

(** [def write_and_return(out_path: OutputPath()) -> str] *)
Definition write_and_return : Function :=
  def_function "write_and_return"
    [mkParameter "out_path" (Marker OutputPath AnnNone) DefaultEmpty]
    (ReturnPlain t_str)
    ["def write_and_return(out_path: OutputPath()) -> str:";
     "    return 'done'"].

(** [def read_data(data_path: InputPath() = None)] *)
Definition read_data : Function :=
  def_function "read_data"
    [mkParameter "data_path" (Marker InputPath AnnNone) DefaultNone]
    (ReturnPlain AnnEmpty)
    ["def read_data(data_path: InputPath() = None):";
     "    pass"].

(** [def add_multiply(a: float, b: float) -> NamedTuple(sum, product)] *)
Definition add_multiply : Function :=
  def_function "add_multiply"
    [mkParameter "a" (Plain t_float) DefaultEmpty;
     mkParameter "b" (Plain t_float) DefaultEmpty]
    (ReturnNamedTuple ["sum"; "product"]
       (Some (<["sum" := t_float]> (<["product" := t_float]> ∅))))
    ["def add_multiply(a: float, b: float) -> NamedTuple('R', [('sum', float), ('product', float)]):";
     "    return (a + b, a * b)"].

(** [def merge(data_path: InputPath(), data_file: InputTextFile(), data)] *)
Definition merge : Function :=
  def_function "merge"
    [mkParameter "data_path" (Marker InputPath AnnNone) DefaultEmpty;
     mkParameter "data_file" (Marker InputTextFile AnnNone) DefaultEmpty;
     mkParameter "data" (Plain AnnEmpty) DefaultEmpty]
    (ReturnPlain AnnEmpty)
    ["def merge(data_path: InputPath(), data_file: InputTextFile(), data):";
     "    pass"].

(** [def train(epochs: int, rate: float = 0.1, model_path: OutputPath() ...) -> None] *)
Definition train : Function :=
  def_function "train"
    [mkParameter "epochs" (Plain t_int) DefaultEmpty;
     mkParameter "rate" (Plain t_float) (DefaultValue "0.1");
     mkParameter "model_path" (Marker OutputPath AnnNone) DefaultEmpty]
    (ReturnPlain AnnNone)
    ["def train(epochs: int, rate: float = 0.1, *, model_path: OutputPath()) -> None:";
     "    pass"].

(** [train] decorated with a base image. *)
Definition train_on (image : string) : Function :=
  {| __name__ := __name__ train; __doc__ := __doc__ train;
     __module__ := __module__ train; parameters := parameters train;
     return_annotation := return_annotation train;
     _component_human_name := None; _component_description := None;
     _component_base_image := Some image;
     getsourcelines := getsourcelines train |}.

Definition with_base_image (image : string) : Options :=
  {| extra_code := ""; base_image := Some image; packages_to_install := None;
     modules_to_capture := None; use_code_pickling := false |}.

(** [train] with a docstring. *)
Definition train_documented : Function :=
  {| __name__ := __name__ train;
     __doc__ := Some ("Trains a model." +:+ nl +:+ nl
                      +:+ "    Writes it to the given path." +:+ nl
                      +:+ "    ");
     __module__ := __module__ train; parameters := parameters train;
     return_annotation := return_annotation train;
     _component_human_name := None; _component_description := None;
     _component_base_image := None;
     getsourcelines := getsourcelines train |}.

Definition v_3_7 : VersionInfo := mkVersionInfo 3 7 4 "final" 0.
Definition v_3_8 : VersionInfo := mkVersionInfo 3 8 0 "final" 0.

End Samples.

(** * Properties *)

Open Scope list_scope.
Open Scope nat_scope.

(** ** Collision resolution *)

Module NamingFacts.
Import Naming.

Lemma indexed_name_inj (name delimiter : string) :
  Inj (=) (=) (indexed_name name delimiter).
Proof.
  intros i j Heq. unfold indexed_name in Heq.
  apply String.app_inj, String.app_inj in Heq.
  by apply (inj pretty) in Heq.
Qed.

(** The search stops on a free candidate as soon as one lies within reach of
    its fuel. *)
Lemma first_free_index_fresh (name delimiter : string) (collection : gset string)
    (fuel i : nat) :
  (∃ j, (i ≤ j ≤ i + fuel)%nat ∧ indexed_name name delimiter j ∉ collection) →
  first_free_index name delimiter collection fuel i ∉ collection.
Proof.
  revert i. induction fuel as [|fuel IH]; intros i (j & Hj & Hfree); simpl.
  - by replace i with j by lia.
  - case_decide as Hin; [|done].
    apply IH. exists j. split; [|done].
    destruct (decide (j = i)) as [->|]; [done|lia].
Qed.

(** Among [n + 1] consecutive indices, one gives a name outside a collection
    of [n] names. *)
Lemma free_index_exists (name delimiter : string) (collection : gset string)
    (i : nat) :
  ∃ j, (i ≤ j ≤ i + size collection)%nat
       ∧ indexed_name name delimiter j ∉ collection.
Proof.
  set (cands := indexed_name name delimiter <$> seq i (S (size collection))).
  destruct (decide (Forall (.∈ collection) cands)) as [Hall|Hex].
  - exfalso.
    assert (NoDup cands) as Hnd.
    { apply (NoDup_fmap_2 _), NoDup_seq. }
    assert (list_to_set cands ⊆ collection) as Hsub.
    { intros x Hx. apply elem_of_list_to_set in Hx.
      by eapply Forall_forall in Hall. }
    apply subseteq_size in Hsub.
    rewrite size_list_to_set in Hsub; [|done].
    unfold cands in Hsub. rewrite length_fmap, length_seq in Hsub. lia.
  - apply not_Forall_Exists, Exists_exists in Hex; [|solve_decision].
    destruct Hex as (x & Hx & Hfree).
    apply list_elem_of_fmap in Hx as (j & -> & Hj).
    apply elem_of_seq in Hj. exists j. split; [lia|done].
Qed.

Lemma make_name_unique_fresh (name : string) (collection : gset string)
    (delimiter : string) :
  _make_name_unique_by_adding_index name collection delimiter ∉ collection.
Proof.
  unfold _make_name_unique_by_adding_index. case_decide; [|done].
  apply first_free_index_fresh, free_index_exists.
Qed.

Lemma make_name_unique_free (name : string) (collection : gset string)
    (delimiter : string) :
  name ∉ collection →
  _make_name_unique_by_adding_index name collection delimiter = name.
Proof. intros. unfold _make_name_unique_by_adding_index. by case_decide. Qed.

End NamingFacts.

(** ** Signature analysis *)

Module InterfaceFacts.
Import Naming Structures PythonOp Shape Samples NamingFacts.

Lemma resolve_names_app (used : gset string) (l1 l2 : list string) :
  resolve_names used (l1 ++ l2)
  = resolve_names used l1
      ++ resolve_names (list_to_set (resolve_names used l1) ∪ used) l2.
Proof.
  revert used. induction l1 as [|n l1 IH]; intros used; simpl.
  - f_equal. set_solver.
  - f_equal. rewrite IH. do 2 f_equal. set_solver.
Qed.

Lemma resolve_names_length (used : gset string) (l : list string) :
  length (resolve_names used l) = length l.
Proof. revert used. induction l; intros; simpl; auto. Qed.

(** Resolved names avoid the names already used and each other. *)
Lemma resolve_names_fresh (used : gset string) (l : list string) :
  NoDup (resolve_names used l)
  ∧ ∀ x, x ∈ resolve_names used l → x ∉ used.
Proof.
  revert used. induction l as [|n l IH]; intros used; simpl.
  - split; [constructor|]. intros x Hx. by apply elem_of_nil in Hx.
  - destruct (IH ({[_make_name_unique_by_adding_index n used "_"]} ∪ used))
      as [Hnd Hfresh].
    split.
    + constructor; [|done]. intros Hin. apply Hfresh in Hin. set_solver.
    + intros x Hx. apply elem_of_cons in Hx as [->|Hx].
      * apply make_name_unique_fresh.
      * apply Hfresh in Hx. set_solver.
Qed.

(** The [k]-th resolved name is the [k]-th name, resolved against the used
    names and the resolved names before it. *)
Lemma resolve_names_lookup (used : gset string) (l : list string) (k : nat)
    (n : string) :
  l !! k = Some n →
  resolve_names used l !! k
  = Some (_make_name_unique_by_adding_index n
            (list_to_set (take k (resolve_names used l)) ∪ used) "_").
Proof.
  revert used k. induction l as [|m l IH]; intros used k Hk; [done|].
  destruct k as [|k]; simpl in *.
  - injection Hk as ->. do 2 f_equal. set_solver.
  - rewrite (IH _ _ Hk). do 2 f_equal. set_solver.
Qed.

(** One turn of the parameter loop: it fails on a marker with a default
    value, and otherwise appends one descriptor to the list of its kind. *)
Lemma extract_parameter_raise (dp : DataPassing) (st : Locals)
    (p : FuncParameter) :
  marker_style p ≠ None → has_default p = true →
  extract_parameter dp st p = Raise file_default_error.
Proof.
  unfold marker_style, has_default, extract_parameter.
  destruct p as [n [a|style ty] d]; simpl; [done|]. intros _ Hd.
  apply bool_decide_eq_true in Hd. by rewrite decide_True.
Qed.

Lemma extract_parameter_ok (dp : DataPassing) (st st' : Locals)
    (p : FuncParameter) :
  extract_parameter dp st p = Ok st' →
  (marker_style p = None ∨ has_default p = false)
  ∧ if is_output_parameter p
    then ∃ o, output_from_parameter p o
           ∧ output_name o
             = _make_name_unique_by_adding_index (external_name p)
                 (output_names st) "_"
           ∧ st' = {| l_inputs := l_inputs st;
                      l_outputs := l_outputs st ++ [o];
                      input_names := input_names st;
                      output_names := {[output_name o]} ∪ output_names st |}
    else ∃ i, input_from_parameter p i
           ∧ input_name i
             = _make_name_unique_by_adding_index (external_name p)
                 (input_names st) "_"
           ∧ st' = {| l_inputs := l_inputs st ++ [i];
                      l_outputs := l_outputs st;
                      input_names := {[input_name i]} ∪ input_names st;
                      output_names := output_names st |}.
Proof.
  unfold extract_parameter, is_output_parameter, marker_style, has_default,
    external_name, input_from_parameter, output_from_parameter.
  destruct p as [n [a|style ty] d]; simpl.
  - destruct d; simpl; intros [= <-];
      (split; [by left|]); eexists (mkInputSpec _ _ _ _ _ _);
      (split; [|split; [|reflexivity]]); by simpl.
  - destruct (decide (d ≠ DefaultEmpty)) as [Hd|Hd]; [done|].
    apply dec_stable in Hd as ->. simpl.
    destruct style; simpl; intros [= <-];
      (split; [by right|]);
      first [eexists (mkInputSpec _ _ _ _ _ _)
            |eexists (mkOutputSpec _ _ _ _ _)];
      (split; [|split; [|reflexivity]]); by simpl.
Qed.

Lemma extract_parameter_raise_inv (dp : DataPassing) (st : Locals)
    (p : FuncParameter) (e : Exception) :
  extract_parameter dp st p = Raise e → e = file_default_error.
Proof.
  unfold extract_parameter.
  destruct p as [n [a|style ty] d]; simpl.
  - by destruct d.
  - destruct (decide (d ≠ DefaultEmpty)); simpl.
    + by intros [= <-].
    + by destruct style, d.
Qed.

Lemma extract_parameter_total (dp : DataPassing) (st : Locals)
    (p : FuncParameter) :
  marker_style p = None ∨ has_default p = false →
  ∃ st', extract_parameter dp st p = Ok st'.
Proof.
  unfold extract_parameter, marker_style, has_default.
  destruct p as [n [a|style ty] d]; simpl.
  - intros _. destruct d; by eexists.
  - intros [|Hd]; [done|]. apply bool_decide_eq_false in Hd.
    rewrite decide_False by done. simpl. destruct style, d; by eexists.
Qed.

(** The parameter loop, from any state of its variables: it fails exactly on
    a marker with a default value, and otherwise appends one input per input
    parameter and one output per output parameter, named by collision
    resolution within the list. *)
Lemma extract_parameters_ok (dp : DataPassing) (ps : list FuncParameter) :
  ∀ st st', extract_parameters dp st ps = Ok st' →
  ∃ new_in new_out,
    l_inputs st' = l_inputs st ++ new_in
    ∧ l_outputs st' = l_outputs st ++ new_out
    ∧ Forall2 input_from_parameter (input_parameters ps) new_in
    ∧ Forall2 output_from_parameter (output_parameters ps) new_out
    ∧ input_name <$> new_in
      = resolve_names (input_names st) (external_name <$> input_parameters ps)
    ∧ output_name <$> new_out
      = resolve_names (output_names st)
          (external_name <$> output_parameters ps)
    ∧ input_names st' = list_to_set (input_name <$> new_in) ∪ input_names st
    ∧ output_names st'
      = list_to_set (output_name <$> new_out) ∪ output_names st.
Proof.
  induction ps as [|p ps IH]; intros st st'; simpl.
  - intros [= <-]. exists [], []. rewrite !app_nil_r.
    split_and!; try done; try constructor; set_solver.
  - destruct (extract_parameter dp st p) as [st1|e] eqn:Hstep; [|done].
    simpl. intros Hrest.
    apply extract_parameter_ok in Hstep as [_ Hstep].
    apply IH in Hrest
      as (new_in & new_out & Hin & Hout & Fin & Fout & Nin & Nout & Sin & Sout).
    unfold input_parameters, output_parameters in *.
    destruct (is_output_parameter p) eqn:Hp.
    + destruct Hstep as (o & Ho & Hname & ->). simpl in *.
      rewrite filter_cons_False by (rewrite Hp; done).
      rewrite filter_cons_True by done.
      exists new_in, (o :: new_out). rewrite <- app_assoc in Hout.
      split_and!; try done.
      * by constructor.
      * rewrite !fmap_cons. cbn [resolve_names]. rewrite <- Hname.
        by rewrite <- Nout.
      * rewrite Sout. set_solver.
    + destruct Hstep as (i & Hi & Hname & ->). simpl in *.
      rewrite filter_cons_True by done.
      rewrite filter_cons_False by (rewrite Hp; done).
      exists (i :: new_in), new_out. rewrite <- app_assoc in Hin.
      split_and!; try done.
      * by constructor.
      * rewrite !fmap_cons. cbn [resolve_names]. rewrite <- Hname.
        by rewrite <- Nin.
      * rewrite Sin. set_solver.
Qed.

(** The parameter loop fails with the error of the first marker that has a
    default value. *)
Lemma extract_parameters_raise (dp : DataPassing) (ps : list FuncParameter) :
  ∀ st, Exists (λ p, marker_style p ≠ None ∧ has_default p = true) ps →
  extract_parameters dp st ps = Raise file_default_error.
Proof.
  induction ps as [|p ps IH]; intros st Hex; [by apply Exists_nil in Hex|].
  simpl. destruct (extract_parameter dp st p) as [st1|e] eqn:Hstep; simpl.
  - apply IH. apply Exists_cons in Hex as [[Hm Hd]|]; [|done].
    by rewrite extract_parameter_raise in Hstep.
  - by apply extract_parameter_raise_inv in Hstep as ->.
Qed.

(** Without such a parameter the loop runs to its end. *)
Lemma extract_parameters_total (dp : DataPassing) (ps : list FuncParameter) :
  ∀ st, Forall (λ p, marker_style p = None ∨ has_default p = false) ps →
  ∃ st', extract_parameters dp st ps = Ok st'.
Proof.
  induction ps as [|p ps IH]; intros st Hall; simpl; [by eexists|].
  apply Forall_cons in Hall as [Hp Hall].
  destruct (extract_parameter_total dp st p Hp) as [st1 ->].
  simpl. by apply IH.
Qed.

(** The loop over the fields of a NamedTuple appends one output per field. *)
Lemma extract_return_fields_ok (dp : DataPassing)
    (field_types : option (gmap string Annotation)) (fields : list string) :
  ∀ st, ∃ ret,
    l_inputs (foldl (extract_return_field dp field_types) st fields)
    = l_inputs st
    ∧ l_outputs (foldl (extract_return_field dp field_types) st fields)
      = l_outputs st ++ ret
    ∧ Forall2 output_from_return (Some <$> fields) ret
    ∧ output_name <$> ret = resolve_names (output_names st) fields.
Proof.
  induction fields as [|f fields IH]; intros st; simpl.
  - exists []. rewrite app_nil_r. by split_and!.
  - destruct (IH (extract_return_field dp field_types st f))
      as (ret & Hin & Hout & Hret & Hnames).
    simpl in *. eexists (mkOutputSpec _ _ _ _ _ :: ret).
    rewrite Hin, Hout, <- app_assoc. split_and!; try done.
    + by constructor.
    + rewrite fmap_cons. simpl. by rewrite Hnames.
Qed.

Lemma extract_return_ok (dp : DataPassing) (st : Locals)
    (return_ann : ReturnAnnotation) :
  ∃ ret,
    l_inputs (extract_return dp st return_ann) = l_inputs st
    ∧ l_outputs (extract_return dp st return_ann) = l_outputs st ++ ret
    ∧ Forall2 output_from_return (return_fields return_ann) ret
    ∧ output_name <$> ret
      = resolve_names (output_names st) (return_names return_ann).
Proof.
  destruct return_ann as [a|fields field_types]; simpl.
  - destruct a;
      first [ by exists []; rewrite app_nil_r; split_and!; try constructor
            | eexists [mkOutputSpec _ _ _ _ _]; simpl;
              split_and!; try done; by repeat constructor ].
  - apply extract_return_fields_ok.
Qed.

(** The shape of every interface that the analysis returns. *)
Lemma extract_component_interface_ok (dp : DataPassing) (func : Function)
    (spec : ComponentSpec) :
  _extract_component_interface dp func = Ok spec →
  ∃ param_outs ret_outs,
    outputs spec = param_outs ++ ret_outs
    ∧ Forall2 input_from_parameter (input_parameters (parameters func))
        (inputs spec)
    ∧ Forall2 output_from_parameter (output_parameters (parameters func))
        param_outs
    ∧ Forall2 output_from_return (return_fields (return_annotation func))
        ret_outs
    ∧ input_name <$> inputs spec
      = resolve_names ∅ (external_name <$> input_parameters (parameters func))
    ∧ output_name <$> outputs spec
      = resolve_names ∅
          ((external_name <$> output_parameters (parameters func))
             ++ return_names (return_annotation func)).
Proof.
  unfold _extract_component_interface.
  destruct (extract_parameters dp _ (parameters func)) as [st|e] eqn:Hloop;
    [|done].
  simpl. intros [= <-]. simpl.
  apply extract_parameters_ok in Hloop
    as (new_in & new_out & Hin & Hout & Fin & Fout & Nin & Nout & _ & Sout).
  simpl in *. rewrite union_empty_r_L in Sout.
  destruct (extract_return_ok dp st (return_annotation func))
    as (ret & Hrin & Hrout & Fret & Nret).
  exists new_out, ret. rewrite Hrin, Hrout, Hin, Hout.
  split_and!; try done.
  by rewrite fmap_app, resolve_names_app, Nret, Sout, Nout, union_empty_r_L.
Qed.

Lemma extract_component_interface_raise (dp : DataPassing) (func : Function) :
  Exists (λ p, marker_style p ≠ None ∧ has_default p = true) (parameters func) →
  _extract_component_interface dp func = Raise file_default_error.
Proof.
  intros Hex. unfold _extract_component_interface.
  by rewrite extract_parameters_raise.
Qed.

(** An interface is returned only if no marker parameter has a default. *)
Lemma extract_component_interface_no_default (dp : DataPassing)
    (func : Function) (spec : ComponentSpec) :
  _extract_component_interface dp func = Ok spec →
  Forall (λ p, marker_style p ≠ None → has_default p = false) (parameters func).
Proof.
  intros Hok. apply Forall_forall. intros p Hp Hm.
  destruct (has_default p) eqn:Hd; [|done].
  rewrite extract_component_interface_raise in Hok; [done|].
  apply Exists_exists. by exists p.
Qed.

Lemma extract_component_interface_total (dp : DataPassing) (func : Function) :
  Forall (λ p, marker_style p = None ∨ has_default p = false) (parameters func) →
  ∃ spec, _extract_component_interface dp func = Ok spec.
Proof.
  intros Hall. unfold _extract_component_interface.
  edestruct (extract_parameters_total dp (parameters func)) as [st ->];
    [done|].
  simpl. by eexists.
Qed.

(** C3: a parameter annotated with one of the six markers that also has a
    default value makes the signature analysis fail with the error for file
    defaults ([ValueError], the configuration error of the module), so that no
    specification comes out of the analysis nor out of the assembly; and in
    every interface that the analysis does return, an input with a file or
    stream passing style is not optional. *)
Theorem marker_with_default_is_rejected (dp : DataPassing) (func : Function) :
  (Exists (λ p, marker_style p ≠ None ∧ has_default p = true)
     (parameters func) →
   _extract_component_interface dp func = Raise file_default_error
   ∧ ∀ py opts, ∃ msg,
       _func_to_component_spec py dp func opts = Raise (ValueError msg))
  ∧ (∀ spec, _extract_component_interface dp func = Ok spec →
     Forall (λ i, input_passing_style i ≠ None → input_optional i = false)
       (inputs spec)).
Proof.
  split.
  - intros Hex. pose proof (extract_component_interface_raise dp func Hex) as Hr.
    split; [done|]. intros py opts. unfold _func_to_component_spec.
    destruct (resolve_base_image py func (base_image opts)) as [[img n]|e] eqn:Hi;
      simpl.
    + rewrite Hr. simpl. by eexists.
    + unfold resolve_base_image in Hi.
      repeat case_match; simplify_eq; by eexists.
  - intros spec Hok.
    pose proof (extract_component_interface_no_default _ _ _ Hok) as Hnd.
    apply extract_component_interface_ok in Hok
      as (_ & _ & _ & Fin & _).
    apply Forall_forall. intros i Hi Hstyle.
    apply list_elem_of_lookup in Hi as [k Hk].
    eapply Forall2_lookup_r in Fin as (q & Hq & Hn & Hs & Ho); [|done].
    rewrite Ho. eapply Forall_forall in Hnd.
    + apply Hnd. by rewrite <- Hs.
    + apply list_elem_of_lookup_2 in Hq.
      unfold input_parameters in Hq. by apply list_elem_of_filter in Hq as [_ ?].
Qed.

Lemma marker_with_default_is_rejected_witness :
  _extract_component_interface dp_sample read_data = Raise file_default_error.
Proof.
  apply (proj1 (marker_with_default_is_rejected dp_sample read_data)).
  apply Exists_cons_hd. split; [discriminate|reflexivity].
Defined.

(** In a list of descriptors whose names are the resolution of [bases], the
    [k]-th name is the [k]-th base resolved against the names before it. *)
Lemma resolved_name_lookup {A : Type} (nm : A → string) (l : list A)
    (bases : list string) (k : nat) (x : A) (b : string) :
  nm <$> l = resolve_names ∅ bases →
  l !! k = Some x → bases !! k = Some b →
  nm x = _make_name_unique_by_adding_index b
           (list_to_set (nm <$> take k l)) "_".
Proof.
  intros Hnames Hx Hb.
  pose proof (resolve_names_lookup ∅ bases k b Hb) as Hk.
  rewrite <- Hnames, list_lookup_fmap, Hx in Hk. simpl in Hk.
  injection Hk as ->. by rewrite fmap_take, union_empty_r_L.
Qed.

(** C4: after the outputs that come from parameters, a NamedTuple return
    annotation gives exactly one output per field, in field order, that
    carries the field name and whose name is the field name resolved against
    the names of all outputs before it; any other return annotation that is
    neither [None] nor the empty annotation gives exactly one output whose
    name is ["Output"] resolved against the names of the outputs before it;
    these outputs have no passing style, which marks them as returned by the
    function. *)
Theorem return_annotation_outputs (dp : DataPassing) (func : Function)
    (spec : ComponentSpec) :
  _extract_component_interface dp func = Ok spec →
  ∃ param_outs ret_outs,
    outputs spec = param_outs ++ ret_outs
    ∧ Forall2 output_from_parameter (output_parameters (parameters func))
        param_outs
    ∧ Forall (λ o, output_passing_style o = None) ret_outs
    ∧ match return_annotation func with
      | ReturnNamedTuple fields _ =>
          Forall2 (λ field o, output_return_tuple_field_name o = Some field)
            fields ret_outs
          ∧ ∀ k field o, fields !! k = Some field → ret_outs !! k = Some o →
              output_name o
              = _make_name_unique_by_adding_index field
                  (list_to_set (output_name <$> param_outs ++ take k ret_outs))
                  "_"
      | ReturnPlain AnnNone | ReturnPlain AnnEmpty => ret_outs = []
      | ReturnPlain _ =>
          ∃ o, ret_outs = [o]
               ∧ output_return_tuple_field_name o = None
               ∧ output_name o
                 = _make_name_unique_by_adding_index single_output_name_const
                     (list_to_set (output_name <$> param_outs)) "_"
      end.
Proof.
  intros Hok.
  apply extract_component_interface_ok in Hok
    as (param_outs & ret_outs & Hout & _ & Fpar & Fret & _ & Nout).
  exists param_outs, ret_outs. split_and!; try done.
  { eapply Forall2_Forall_r; [exact Fret|].
    apply Forall_forall. by intros f _ o (? & _). }
  assert (length (external_name <$> output_parameters (parameters func))
          = length param_outs) as Hlen.
  { rewrite length_fmap. by eapply Forall2_length. }
  assert (∀ k b o, return_names (return_annotation func) !! k = Some b →
            ret_outs !! k = Some o →
            output_name o
            = _make_name_unique_by_adding_index b
                (list_to_set (output_name <$> param_outs ++ take k ret_outs))
                "_") as Hname.
  { intros k b o Hb Ho.
    rewrite (resolved_name_lookup output_name (outputs spec) _
               (length param_outs + k) o b Nout).
    - rewrite Hout, take_app_add'; done.
    - rewrite Hout, lookup_app_r by lia. by replace (_ + k - _) with k by lia.
    - rewrite lookup_app_r by lia. by replace (_ + k - _) with k by lia. }
  destruct (return_annotation func) as [a|fields field_types]; simpl in *.
  - destruct a; simpl in *;
      first [ by apply Forall2_nil_inv_l in Fret
            | apply Forall2_cons_inv_l in Fret as (o & tl & Ho & Htl & ->);
              apply Forall2_nil_inv_l in Htl as ->;
              exists o; split_and!; [done|by destruct Ho as (_ & _ & ?)|];
              rewrite (Hname 0 _ o eq_refl eq_refl); simpl;
              by rewrite app_nil_r ].
  - split; [|done].
    rewrite Forall2_fmap_l in Fret.
    eapply Forall2_impl; [exact Fret|]. by intros f o (_ & _ & ?).
Qed.

Lemma return_annotation_outputs_witness :
  ∃ spec param_outs ret_outs,
    _extract_component_interface dp_sample add_multiply = Ok spec
    ∧ outputs spec = param_outs ++ ret_outs
    ∧ Forall (λ o, output_passing_style o = None) ret_outs.
Proof.
  assert (∃ spec, _extract_component_interface dp_sample add_multiply = Ok spec)
    as [spec Hspec] by (eexists; vm_compute; reflexivity).
  destruct (return_annotation_outputs dp_sample add_multiply spec Hspec)
    as (param_outs & ret_outs & Hout & _ & Hstyle & _).
  by exists spec, param_outs, ret_outs.
Defined.

(** C5: in every interface that the analysis returns, the names of the
    inputs are pairwise different and so are the names of the outputs; each
    name is the external name of its parameter (or the name given by the
    return annotation) resolved by the suffixing rule against the names that
    come before it in the same list, and only in that list. *)
Theorem descriptor_names_unique (dp : DataPassing) (func : Function)
    (spec : ComponentSpec) :
  _extract_component_interface dp func = Ok spec →
  NoDup (input_name <$> inputs spec)
  ∧ NoDup (output_name <$> outputs spec)
  ∧ (∀ k i, inputs spec !! k = Some i →
       ∃ p, input_parameters (parameters func) !! k = Some p
            ∧ input_name i
              = _make_name_unique_by_adding_index (external_name p)
                  (list_to_set (input_name <$> take k (inputs spec))) "_")
  ∧ (∀ k o, outputs spec !! k = Some o →
       ∃ b, ((external_name <$> output_parameters (parameters func))
               ++ return_names (return_annotation func)) !! k = Some b
            ∧ output_name o
              = _make_name_unique_by_adding_index b
                  (list_to_set (output_name <$> take k (outputs spec))) "_").
Proof.
  intros Hok.
  apply extract_component_interface_ok in Hok
    as (param_outs & ret_outs & Hout & Fin & _ & _ & Nin & Nout).
  split_and!.
  - rewrite Nin. apply resolve_names_fresh.
  - rewrite Nout. apply resolve_names_fresh.
  - intros k i Hi.
    destruct (Forall2_lookup_r _ _ _ _ _ Fin Hi) as (p & Hp & _).
    exists p. split; [done|].
    eapply resolved_name_lookup; [exact Nin|done|].
    by rewrite list_lookup_fmap, Hp.
  - intros k o Ho.
    assert (is_Some (resolve_names ∅
              ((external_name <$> output_parameters (parameters func))
                 ++ return_names (return_annotation func)) !! k)) as Hk.
    { rewrite <- Nout, list_lookup_fmap, Ho. by eexists. }
    apply lookup_lt_is_Some in Hk. rewrite resolve_names_length in Hk.
    apply lookup_lt_is_Some in Hk as [b Hb].
    exists b. split; [done|]. by eapply resolved_name_lookup.
Qed.

Lemma descriptor_names_unique_witness :
  ∃ spec, _extract_component_interface dp_sample merge = Ok spec
          ∧ input_name <$> inputs spec = ["data"; "data_2"; "data_3"]
          ∧ NoDup (input_name <$> inputs spec).
Proof.
  assert (∃ spec, _extract_component_interface dp_sample merge = Ok spec
                  ∧ input_name <$> inputs spec = ["data"; "data_2"; "data_3"])
    as (spec & Hspec & Hnames) by (eexists; vm_compute; split; reflexivity).
  exists spec. split_and!; [done|done|].
  apply (descriptor_names_unique dp_sample merge spec Hspec).
Defined.

(** C9: when the return annotation is [None], every output of the interface
    comes from an output parameter: the outputs are, one for one and in
    order, those of the parameters annotated with an output marker. *)
Theorem none_return_gives_no_output (dp : DataPassing) (func : Function)
    (spec : ComponentSpec) :
  return_annotation func = ReturnPlain AnnNone →
  _extract_component_interface dp func = Ok spec →
  Forall2 output_from_parameter (output_parameters (parameters func))
    (outputs spec)
  ∧ Forall (λ o, output_passing_style o ≠ None) (outputs spec).
Proof.
  intros Hnone Hok.
  apply extract_component_interface_ok in Hok
    as (param_outs & ret_outs & Hout & _ & Fpar & Fret & _).
  rewrite Hnone in Fret. simpl in Fret. apply Forall2_nil_inv_l in Fret as ->.
  rewrite app_nil_r in Hout. rewrite Hout. split; [done|].
  eapply Forall2_Forall_r; [exact Fpar|].
  apply Forall_forall. intros p Hp o (_ & Hs & _). rewrite Hs.
  apply list_elem_of_filter in Hp as [Hp _].
  unfold is_output_parameter in Hp. by destruct (marker_style p).
Qed.

Lemma none_return_gives_no_output_witness :
  ∃ spec, _extract_component_interface dp_sample train = Ok spec
          ∧ Forall (λ o, output_passing_style o ≠ None) (outputs spec).
Proof.
  assert (∃ spec, _extract_component_interface dp_sample train = Ok spec)
    as [spec Hspec] by (eexists; vm_compute; reflexivity).
  exists spec. split; [done|].
  apply (none_return_gives_no_output dp_sample train spec eq_refl Hspec).
Defined.

End InterfaceFacts.

(** ** The command-line template and the generated program *)

Module TemplateFacts.
Import PyStr Naming Structures PythonOp Shape Samples InterfaceFacts.

Lemma arguments_for_input_pair (x : IOSpec) :
  arguments_for_input x = [flag_of x; placeholder_of x].
Proof.
  unfold arguments_for_input, placeholder_of, flag_of, param_flag_of.
  by destruct (io_passing_style x) as [[]|].
Qed.

(** The loop over the flagged descriptors appends to the arguments the item
    of each descriptor, and to the parser lines one [add_argument] line per
    descriptor, whose [dest] is the descriptor's [_parameter_name]. *)
Lemma scaffold_inputs_ok (dp : DataPassing) (l : list IOSpec) :
  ∀ st st', scaffold_inputs dp st l = Ok st' →
  arguments st' = arguments st ++ concat (template_item <$> l)
  ∧ ∃ lines,
      arg_parse_code_lines st' = arg_parse_code_lines st ++ lines
      ∧ Forall2 (λ x line, ∃ param_var param_type,
                   io_parameter_name x = Ok param_var
                   ∧ line = add_argument_line (param_flag_of x) param_var
                              param_type (io_is_required x))
          l lines.
Proof.
  induction l as [|x l IH]; intros st st'; simpl.
  - intros [= <-]. rewrite app_nil_r. split; [done|].
    exists []. by rewrite app_nil_r.
  - unfold scaffold_input.
    destruct (io_parameter_name x) as [param_var|e] eqn:Hvar; [|done]. simpl.
    destruct (get_argparse_type_for_input_file _ _) as [argparse_type pre].
    destruct (match argparse_type with Some _ => _ | None => _ end)
      as [param_type defs].
    intros Hrest. apply IH in Hrest as (Hargs & lines & Hlines & Hall).
    simpl in *. split.
    + rewrite Hargs, arguments_for_input_pair. unfold template_item.
      destruct (io_is_required x); by rewrite <- app_assoc.
    + eexists (_ :: lines). rewrite Hlines, <- app_assoc. split; [done|].
      constructor; [|done]. by exists param_var, param_type.
Qed.

Lemma scaffold_return_outputs_arguments (component_spec : ComponentSpec)
    (st : Scaffold) :
  arguments (scaffold_return_outputs component_spec st)
  = arguments st ++ output_paths_block component_spec.
Proof.
  unfold scaffold_return_outputs, output_paths_block.
  destruct (outputs_passed_through_func_return_tuple component_spec); simpl.
  - by rewrite app_nil_r.
  - by rewrite <- app_assoc.
Qed.

(** The steps of a successful assembly. *)
Lemma func_to_component_spec_ok (py : Interpreter) (dp : DataPassing)
    (func : Function) (opts : Options) (spec : ComponentSpec) :
  _func_to_component_spec py dp func opts = Ok spec →
  ∃ img calls cs func_code st,
    resolve_base_image py func (base_image opts) = Ok (img, calls)
    ∧ _extract_component_interface dp func = Ok cs
    ∧ capture_function_code py func opts = Ok func_code
    ∧ scaffold_inputs dp (initial_scaffold py cs) (flagged_specs cs) = Ok st
    ∧ spec
      = {| name := name cs;
           description := description cs;
           inputs := inputs cs;
           outputs := outputs cs;
           implementation :=
             Some {| image := img;
                     command :=
                       package_preinstallation_command py
                         (default [] (packages_to_install opts))
                         ++ [Str "python3"; Str "-u"; Str "-c";
                             Str (generate_full_source py dp func opts cs
                                    func_code
                                    (scaffold_return_outputs cs st))];
                     args := arguments (scaffold_return_outputs cs st) |} |}.
Proof.
  unfold _func_to_component_spec.
  destruct (resolve_base_image _ _ _) as [[img calls]|?]; [|done]. simpl.
  destruct (_extract_component_interface _ _) as [cs|?]; [|done]. simpl.
  destruct (capture_function_code _ _ _) as [func_code|?]; [|done]. simpl.
  destruct (scaffold_inputs _ _ _) as [st|?] eqn:Hst; [|done]. simpl.
  intros [= <-]. by exists img, calls, cs, func_code, st.
Qed.

(** The args of an assembled component: the items of the inputs, then those
    of the file outputs, then the block of output paths. *)
Lemma func_to_component_spec_args (py : Interpreter) (dp : DataPassing)
    (func : Function) (opts : Options) (spec : ComponentSpec) :
  _func_to_component_spec py dp func opts = Ok spec →
  spec_args spec
  = concat (template_item <$> flagged_specs spec) ++ output_paths_block spec.
Proof.
  intros Hok.
  apply func_to_component_spec_ok in Hok
    as (img & calls & cs & func_code & st & _ & _ & _ & Hst & ->).
  apply scaffold_inputs_ok in Hst as [Hargs _].
  unfold spec_args. simpl.
  by rewrite scaffold_return_outputs_arguments, Hargs.
Qed.

End TemplateFacts.

(** ** The container image *)

Module ImageFacts.
Import PyStr Naming Structures PythonOp Shape Samples TemplateFacts.

Lemma resolve_base_image_ok (py : Interpreter) (func : Function)
    (opts : Options) :
  image_conflict func opts = false →
  resolve_base_image py func (base_image opts)
  = Ok (effective_image py func opts, default_factory_calls py func opts).
Proof.
  unfold image_conflict, resolve_base_image, effective_image,
    default_factory_calls.
  destruct (base_image opts) as [explicit|],
    (_component_base_image func) as [attached|]; try done.
  - intros Hc. apply bool_decide_eq_false in Hc.
    rewrite decide_False by done. apply dec_stable in Hc. by subst.
  - by destruct (_default_base_image py).
Qed.

Lemma resolve_base_image_conflict (py : Interpreter) (func : Function)
    (opts : Options) :
  image_conflict func opts = true →
  ∃ msg, resolve_base_image py func (base_image opts) = Raise (ValueError msg).
Proof.
  unfold image_conflict, resolve_base_image.
  destruct (base_image opts) as [explicit|],
    (_component_base_image func) as [attached|]; try done.
  intros Hc. apply bool_decide_eq_true in Hc.
  rewrite decide_True by done. by eexists.
Qed.

(** X1: the image of a component: an explicit image that differs from the image
    attached to the function makes the whole assembly fail with a
    [ValueError]; otherwise the image is the explicit one, else the attached
    one, else the default, and the factory of a default image is called only
    in the last case, once. *)
Theorem base_image_precedence (py : Interpreter) (dp : DataPassing)
    (func : Function) (opts : Options) :
  (image_conflict func opts = true →
   ∃ msg, resolve_base_image py func (base_image opts) = Raise (ValueError msg)
          ∧ _func_to_component_spec py dp func opts = Raise (ValueError msg))
  ∧ (image_conflict func opts = false →
     resolve_base_image py func (base_image opts)
     = Ok (effective_image py func opts, default_factory_calls py func opts))
  ∧ (∀ spec, _func_to_component_spec py dp func opts = Ok spec →
     image_conflict func opts = false
     ∧ image <$> implementation spec = Some (effective_image py func opts)).
Proof.
  split_and!.
  - intros Hc. destruct (resolve_base_image_conflict py _ _ Hc) as [msg Hmsg].
    exists msg. split; [done|].
    unfold _func_to_component_spec. by rewrite Hmsg.
  - apply resolve_base_image_ok.
  - intros spec Hok. destruct (image_conflict func opts) eqn:Hc.
    + destruct (resolve_base_image_conflict py _ _ Hc) as [msg Hmsg].
      unfold _func_to_component_spec in Hok. by rewrite Hmsg in Hok.
    + split; [done|].
      apply func_to_component_spec_ok in Hok
        as (img & calls & cs & func_code & st & Himg & _ & _ & _ & ->).
      rewrite resolve_base_image_ok in Himg by done.
      by injection Himg as <- <-.
Qed.

Lemma base_image_precedence_witness :
  (∃ msg, _func_to_component_spec py_sample dp_sample (train_on "python:3.7")
            (with_base_image "python:3.8") = Raise (ValueError msg))
  ∧ resolve_base_image py_sample train (base_image (with_base_image "alpine"))
    = Ok ("alpine", 0).
Proof.
  split.
  - destruct (proj1 (base_image_precedence py_sample dp_sample
                       (train_on "python:3.7") (with_base_image "python:3.8"))
                eq_refl) as (msg & _ & Hmsg).
    by exists msg.
  - apply (proj1 (proj2 (base_image_precedence py_sample dp_sample train
                           (with_base_image "alpine"))) eq_refl).
Defined.

End ImageFacts.

(** ** The version check of the generated loader *)

Module LoaderFacts.
Import PythonOp Shape Samples.

Lemma pre_3_6_differs (p c : VersionInfo) :
  major c = major p →
  pre_3_6 p ≠ pre_3_6 c
  ↔ major c = 3 ∧ (minor p <? 6) ≠ (minor c <? 6).
Proof.
  unfold pre_3_6. intros ->.
  destruct (Nat.ltb_spec (major p) 3), (Nat.eqb_spec (major p) 3);
    simpl; try lia; split; try tauto; try (intros [? ?]; lia).
Qed.

(** X2: the loader raises [RuntimeError] exactly when the major versions differ,
    or the running interpreter has a lower minor version than the pickling
    one, or only one of the two is older than 3.6; it prints its warning
    exactly when it does not raise and the two version tuples differ in any
    field; it stays silent exactly when the tuples are equal. *)
Theorem loader_version_check_outcomes (pickler current : VersionInfo) :
  (loader_version_check pickler current = RaisesRuntimeError
   ↔ major current ≠ major pickler
     ∨ minor current < minor pickler
     ∨ pre_3_6 pickler ≠ pre_3_6 current)
  ∧ (loader_version_check pickler current = PrintsWarning
     ↔ major current = major pickler
       ∧ minor pickler ≤ minor current
       ∧ pre_3_6 pickler = pre_3_6 current
       ∧ current ≠ pickler)
  ∧ (loader_version_check pickler current = Silent ↔ current = pickler).
Proof.
  assert (loader_version_check pickler current = RaisesRuntimeError
          ↔ major current ≠ major pickler
            ∨ minor current < minor pickler
            ∨ pre_3_6 pickler ≠ pre_3_6 current) as Hfatal.
  { unfold loader_version_check.
    destruct (Nat.eqb_spec (major current) (major pickler)) as [Hmaj|Hmaj];
      simpl; [|by intuition].
    destruct (Nat.ltb_spec (minor current) (minor pickler)); simpl;
      [by intuition|].
    rewrite (pre_3_6_differs _ _ Hmaj).
    destruct (Nat.eqb_spec (major current) 3); simpl.
    - destruct (minor pickler <? 6), (minor current <? 6); simpl;
        try case_decide; split; intros; try done; try naive_solver lia.
    - case_decide; split; intros; try done; naive_solver lia. }
  assert (current = pickler → loader_version_check pickler current = Silent)
    as Hsame.
  { intros ->. unfold loader_version_check.
    rewrite Nat.eqb_refl, Nat.ltb_irrefl, Bool.eqb_reflx. simpl.
    rewrite andb_false_r. by rewrite decide_False by (by intros []). }
  split_and!; [done| |].
  - split.
    + intros Hw. destruct (decide (current = pickler)) as [Heq|Hne].
      { rewrite Hsame in Hw; done. }
      destruct (decide (major current = major pickler)) as [?|Hn];
        [|by rewrite (proj2 Hfatal) in Hw; [|left]].
      destruct (decide (minor current < minor pickler)) as [?|?];
        [by rewrite (proj2 Hfatal) in Hw; [|right; left]|].
      destruct (decide (pre_3_6 pickler = pre_3_6 current)) as [?|?];
        [|by rewrite (proj2 Hfatal) in Hw; [|right; right]].
      split_and!; [done|lia|done|done].
    + intros (Hmaj & Hmin & Hpre & Hne).
      destruct (loader_version_check pickler current) eqn:Hc; [|done|].
      * destruct (proj1 Hfatal eq_refl) as [?|[?|?]]; [done|lia|done].
      * unfold loader_version_check in Hc.
        destruct (_ || _); [done|]. by case_decide.
  - split; [|done]. intros Hs. unfold loader_version_check in Hs.
    destruct (_ || _); [done|]. case_decide as Hd; [done|].
    first [done | by apply dec_stable].
Qed.

Lemma loader_version_check_outcomes_witness :
  loader_version_check v_3_8 v_3_7 = RaisesRuntimeError
  ∧ loader_version_check v_3_7 v_3_8 = PrintsWarning.
Proof.
  split.
  - apply (proj1 (loader_version_check_outcomes v_3_8 v_3_7)).
    right. left. simpl. lia.
  - apply (proj1 (proj2 (loader_version_check_outcomes v_3_7 v_3_8))).
    split_and!; [reflexivity|simpl; lia|reflexivity|discriminate].
Defined.

End LoaderFacts.

(** ** The assembled component *)

Module ProgramFacts.
Import PyStr Naming Structures PythonOp Shape Samples.
Import InterfaceFacts TemplateFacts ImageFacts.

Lemma filter_all {A : Type} (P : A → Prop) `{!∀ x, Decision (P x)}
    (l : list A) :
  Forall P l → filter P l = l.
Proof.
  induction 1 as [|x l Hx _ IH]; [done|].
  by rewrite filter_cons_True, IH.
Qed.

Lemma filter_none {A : Type} (P : A → Prop) `{!∀ x, Decision (P x)}
    (l : list A) :
  Forall (λ x, ¬ P x) l → filter P l = [].
Proof.
  induction 1 as [|x l Hx _ IH]; [done|].
  by rewrite filter_cons_False.
Qed.

(** The outputs with a passing style are those that come from parameters,
    the outputs without one those that come from the return annotation. *)
Lemma outputs_split (dp : DataPassing) (func : Function) (cs : ComponentSpec) :
  _extract_component_interface dp func = Ok cs →
  ∃ ret_outs,
    outputs cs = file_outputs_passed_using_func_parameters cs ++ ret_outs
    ∧ outputs_passed_through_func_return_tuple cs = ret_outs
    ∧ Forall2 output_from_parameter (output_parameters (parameters func))
        (file_outputs_passed_using_func_parameters cs).
Proof.
  intros Hok.
  apply extract_component_interface_ok in Hok
    as (param_outs & ret_outs & Hout & _ & Fpar & Fret & _).
  assert (Forall (λ o, output_passing_style o ≠ None) param_outs) as Hpar.
  { eapply Forall2_Forall_r; [exact Fpar|].
    apply Forall_forall. intros p Hp o (_ & Hs & _). rewrite Hs.
    apply list_elem_of_filter in Hp as [Hp _].
    unfold is_output_parameter in Hp. by destruct (marker_style p). }
  assert (Forall (λ o, output_passing_style o = None) ret_outs) as Hret.
  { eapply Forall2_Forall_r; [exact Fret|].
    apply Forall_forall. by intros f _ o (? & _). }
  unfold file_outputs_passed_using_func_parameters,
    outputs_passed_through_func_return_tuple.
  rewrite Hout, !filter_app.
  rewrite (filter_all _ param_outs Hpar), (filter_all _ ret_outs Hret).
  rewrite (filter_none (λ o, output_passing_style o ≠ None) ret_outs),
    (filter_none (λ o, output_passing_style o = None) param_outs).
  - exists ret_outs. by rewrite app_nil_r.
  - done.
  - eapply Forall_impl; [exact Hret|]. by intros o -> ?.
Qed.

(** The flagged descriptors of an interface stand, one for one and in order,
    for the input parameters followed by the output parameters, and each
    keeps the name of its parameter. *)
Lemma flagged_specs_parameters (dp : DataPassing) (func : Function)
    (cs : ComponentSpec) :
  _extract_component_interface dp func = Ok cs →
  Forall2 (λ p x, io_parameter_name x = Ok (parameter_name p))
    (input_parameters (parameters func) ++ output_parameters (parameters func))
    (flagged_specs cs).
Proof.
  intros Hok. destruct (outputs_split _ _ _ Hok) as (ret & _ & _ & Fout).
  apply extract_component_interface_ok in Hok
    as (_ & _ & _ & Fin & _).
  unfold flagged_specs. apply Forall2_app.
  - apply Forall2_fmap_r. eapply Forall2_impl; [exact Fin|].
    intros p i (Hn & _). simpl. by rewrite Hn.
  - apply Forall2_fmap_r. eapply Forall2_impl; [exact Fout|].
    intros p o (Hn & _). simpl. by rewrite Hn.
Qed.

Lemma scaffold_inputs_total (dp : DataPassing) (l : list IOSpec) :
  ∀ st, Forall (λ x, ∃ v, io_parameter_name x = Ok v) l →
  ∃ st', scaffold_inputs dp st l = Ok st'.
Proof.
  induction l as [|x l IH]; intros st Hall; simpl; [by eexists|].
  apply Forall_cons in Hall as [[v Hv] Hall].
  unfold scaffold_input. rewrite Hv. simpl.
  destruct (get_argparse_type_for_input_file _ _) as [argparse_type pre].
  destruct (match argparse_type with Some _ => _ | None => _ end)
    as [param_type defs].
  simpl. apply IH, Hall.
Qed.

(** X3: the interface and the args of a component come from the signature and
    the data-passing tables alone: neither the interpreter (its set order,
    its default image, its version) nor the options of the call change them. *)
Theorem args_depend_on_signature_only (py1 py2 : Interpreter)
    (dp : DataPassing) (func : Function) (opts1 opts2 : Options)
    (spec1 spec2 : ComponentSpec) :
  _func_to_component_spec py1 dp func opts1 = Ok spec1 →
  _func_to_component_spec py2 dp func opts2 = Ok spec2 →
  name spec1 = name spec2
  ∧ description spec1 = description spec2
  ∧ inputs spec1 = inputs spec2
  ∧ outputs spec1 = outputs spec2
  ∧ spec_args spec1 = spec_args spec2.
Proof.
  intros H1 H2.
  pose proof (func_to_component_spec_args _ _ _ _ _ H1) as Hargs1.
  pose proof (func_to_component_spec_args _ _ _ _ _ H2) as Hargs2.
  apply func_to_component_spec_ok in H1
    as (? & ? & cs1 & ? & ? & _ & Hcs1 & _ & _ & ->).
  apply func_to_component_spec_ok in H2
    as (? & ? & cs2 & ? & ? & _ & Hcs2 & _ & _ & ->).
  rewrite Hcs1 in Hcs2. injection Hcs2 as <-.
  split_and!; try done. by rewrite Hargs1, Hargs2.
Qed.

Lemma args_depend_on_signature_only_witness :
  ∃ spec1 spec2,
    _func_to_component_spec py_sample dp_sample train default_options
    = Ok spec1
    ∧ _func_to_component_spec py_reversed dp_sample train
        (with_base_image "alpine") = Ok spec2
    ∧ spec_args spec1 = spec_args spec2.
Proof.
  assert (∃ spec1,
            _func_to_component_spec py_sample dp_sample train default_options
            = Ok spec1) as [spec1 H1] by (eexists; vm_compute; reflexivity).
  assert (∃ spec2,
            _func_to_component_spec py_reversed dp_sample train
              (with_base_image "alpine") = Ok spec2)
    as [spec2 H2] by (eexists; vm_compute; reflexivity).
  exists spec1, spec2. split_and!; [done|done|].
  apply (args_depend_on_signature_only _ _ _ _ _ _ _ _ H1 H2).
Defined.

(** X4: after the flagged descriptors the args hold nothing when no output comes
    from the return annotation; otherwise they end with the flag
    ["----output-paths"] followed by one [OutputPathPlaceholder] for every
    output of the component, in order, whatever its passing style. *)
Theorem output_paths_block_in_args (py : Interpreter) (dp : DataPassing)
    (func : Function) (opts : Options) (spec : ComponentSpec) :
  _func_to_component_spec py dp func opts = Ok spec →
  (Forall (λ o, output_passing_style o ≠ None) (outputs spec) →
   spec_args spec = concat (template_item <$> flagged_specs spec))
  ∧ (Exists (λ o, output_passing_style o = None) (outputs spec) →
     spec_args spec
     = concat (template_item <$> flagged_specs spec)
         ++ Str "----output-paths"
         :: ((λ o, OutputPathPlaceholder (output_name o)) <$> outputs spec)).
Proof.
  intros Hok. rewrite (func_to_component_spec_args _ _ _ _ _ Hok).
  unfold output_paths_block, outputs_passed_through_func_return_tuple.
  split.
  - intros Hall.
    rewrite (filter_none (λ o, output_passing_style o = None)).
    + by rewrite app_nil_r.
    + eapply Forall_impl; [exact Hall|]. by intros o ? ?.
  - intros Hex. apply Exists_exists in Hex as (o & Ho & Hs).
    destruct (filter _ (outputs spec)) as [|o' l] eqn:Hf; [|done].
    assert (o ∈ filter (λ o, output_passing_style o = None) (outputs spec))
      as Hin by by apply list_elem_of_filter.
    rewrite Hf in Hin. by apply elem_of_nil in Hin.
Qed.

Lemma output_paths_block_in_args_witness :
  ∃ spec,
    _func_to_component_spec py_sample dp_sample write_and_return
      default_options = Ok spec
    ∧ spec_args spec
      = [Str "--out"; OutputPathPlaceholder "out"; Str "----output-paths";
         OutputPathPlaceholder "out"; OutputPathPlaceholder "Output"].
Proof.
  assert (∃ spec,
            _func_to_component_spec py_sample dp_sample write_and_return
              default_options = Ok spec
            ∧ Exists (λ o, output_passing_style o = None) (outputs spec)
            ∧ concat (template_item <$> flagged_specs spec)
                ++ Str "----output-paths"
                :: ((λ o, OutputPathPlaceholder (output_name o))
                      <$> outputs spec)
              = [Str "--out"; OutputPathPlaceholder "out";
                 Str "----output-paths"; OutputPathPlaceholder "out";
                 OutputPathPlaceholder "Output"])
    as (spec & Hspec & Hex & Heq).
  { eexists. split; [vm_compute; reflexivity|]. split; [|reflexivity].
    apply Exists_cons_tl, Exists_cons_hd. reflexivity. }
  exists spec. split; [done|]. rewrite <- Heq.
  apply (proj2 (output_paths_block_in_args _ _ _ _ _ Hspec) Hex).
Defined.

Lemma scaffold_return_outputs_lines (component_spec : ComponentSpec)
    (st : Scaffold) :
  arg_parse_code_lines (scaffold_return_outputs component_spec st)
  = arg_parse_code_lines st
      ++ match outputs_passed_through_func_return_tuple component_spec with
         | [] => []
         | _ :: _ => [output_paths_line (length (outputs component_spec))]
         end.
Proof.
  unfold scaffold_return_outputs.
  destruct (outputs_passed_through_func_return_tuple component_spec);
    [by rewrite app_nil_r|done].
Qed.

End ProgramFacts.

(** ** Capturing the source of the function *)

Module CaptureFacts.
Import PyStr Structures PythonOp Shape Samples.

Lemma append_cons (c : ascii) (s t : string) :
  String c s +:+ t = String c (s +:+ t).
Proof. reflexivity. Qed.

Lemma append_nil_l (s : string) : "" +:+ s = s.
Proof. reflexivity. Qed.

Lemma append_nil_r (s : string) : s +:+ "" = s.
Proof.
  induction s as [|c s IH]; [done|]. by rewrite append_cons, IH.
Qed.

Lemma append_assoc (s t u : string) : (s +:+ t) +:+ u = s +:+ t +:+ u.
Proof.
  induction s as [|c s IH]; [done|]. by rewrite !append_cons, IH.
Qed.

Lemma substring_all (s : string) : String.substring 0 (String.length s) s = s.
Proof. induction s as [|c s IH]; simpl; [done|by rewrite IH]. Qed.

Lemma length_lstrip (p : ascii → bool) (s : string) :
  String.length (lstrip p s) ≤ String.length s.
Proof.
  induction s as [|c s IH]; simpl; [done|]. destruct (p c); simpl; lia.
Qed.

(** Dropping as many characters as [lstrip] removes gives [lstrip]. *)
Lemma drop_first_lstrip (p : ascii → bool) (s : string) :
  drop_first (String.length s - String.length (lstrip p s)) s = lstrip p s.
Proof.
  unfold drop_first. induction s as [|c s IH]; [done|].
  cbn [lstrip]. destruct (p c).
  - pose proof (length_lstrip p s). cbn [String.length].
    replace (S (String.length s) - String.length (lstrip p s))
      with (S (String.length s - String.length (lstrip p s))) by lia.
    exact IH.
  - rewrite Nat.sub_diag, Nat.sub_0_r. apply substring_all.
Qed.

Lemma join_empty_cons (x : string) (l : list string) :
  join "" (x :: l) = x +:+ join "" l.
Proof.
  destruct l; cbn [join]; [by rewrite append_nil_r|by rewrite append_nil_l].
Qed.

Lemma drop_decorator_lines_all (lines : list string) :
  Forall (λ line, is_decorator_line line = true) lines →
  drop_decorator_lines lines = Raise (IndexError "list index out of range").
Proof.
  induction 1 as [|line lines Hd _ IH]; simpl; [done|].
  unfold is_decorator_line in Hd. by rewrite Hd.
Qed.

Lemma drop_decorator_lines_first (decorators rest : list string)
    (first_line : string) :
  Forall (λ line, is_decorator_line line = true) decorators →
  is_decorator_line first_line = false →
  drop_decorator_lines (decorators ++ first_line :: rest)
  = Ok (first_line :: rest).
Proof.
  intros Hd Hf. induction Hd as [|line lines Hl _ IH]; simpl.
  - unfold is_decorator_line in Hf. by rewrite Hf.
  - unfold is_decorator_line in Hl. by rewrite Hl.
Qed.

(** X7: the source copy drops the decorator lines at the top, takes the
    indentation of the first line that is left away from every line, and
    puts the import of [NamedTuple] in front when the return annotation is
    one; when every source line is a decorator line (or there is none) it
    fails with [IndexError]. *)
Theorem source_copy_drops_decorators_and_indentation (func : Function) :
  (Forall (λ line, is_decorator_line line = true) (getsourcelines func) →
   _capture_function_code_using_source_copy func
   = Raise (IndexError "list index out of range"))
  ∧ ∀ decorators first_line rest,
      getsourcelines func = decorators ++ first_line :: rest →
      Forall (λ line, is_decorator_line line = true) decorators →
      is_decorator_line first_line = false →
      let indent :=
        String.length first_line
        - String.length (lstrip is_space first_line) in
      _capture_function_code_using_source_copy func
      = Ok ((if has_fields (return_annotation func)
             then "from typing import NamedTuple" +:+ nl +:+ nl
             else "")
            +:+ lstrip is_space first_line
            +:+ join "" (drop_first indent <$> rest)).
Proof.
  unfold _capture_function_code_using_source_copy. split.
  - intros Hall. by rewrite drop_decorator_lines_all.
  - intros decorators first_line rest Hsrc Hd Hf.
    rewrite Hsrc, drop_decorator_lines_first by done. simpl.
    rewrite drop_first_lstrip. f_equal.
    destruct (has_fields (return_annotation func)).
    + by rewrite !join_empty_cons, !append_assoc.
    + by rewrite join_empty_cons, append_nil_l.
Qed.

Lemma source_copy_drops_decorators_and_indentation_witness :
  _capture_function_code_using_source_copy
    (def_function "f" [] (ReturnPlain AnnEmpty)
       ["    @decorated"; "    def f():"; "        pass"])
  = Ok ("def f():" +:+ nl +:+ "    pass" +:+ nl).
Proof.
  apply (proj2 (source_copy_drops_decorators_and_indentation
                  (def_function "f" [] (ReturnPlain AnnEmpty)
                     ["    @decorated"; "    def f():"; "        pass"]))
           ["    @decorated" +:+ nl] ("    def f():" +:+ nl)
           ["        pass" +:+ nl]).
  - reflexivity.
  - by repeat constructor.
  - reflexivity.
Defined.

End CaptureFacts.


(** ** More on the interface *)

Module InterfaceData.
Import Naming Structures PythonOp Shape Samples NamingFacts InterfaceFacts.

Lemma extract_parameter_input_data (dp : DataPassing) (st st' : Locals)
    (p : FuncParameter) :
  extract_parameter dp st p = Ok st' →
  if is_output_parameter p
  then l_inputs st' = l_inputs st
  else ∃ i, l_inputs st' = l_inputs st ++ [i]
            ∧ input_data_from_parameter dp p i.
Proof.
  unfold extract_parameter, is_output_parameter, marker_style,
    input_data_from_parameter, inner_annotation.
  destruct p as [n [a|style ty] d]; simpl.
  - destruct d; simpl; intros [= <-]; by eexists.
  - destruct (decide (d ≠ DefaultEmpty)) as [Hd|Hd]; [done|].
    apply dec_stable in Hd as ->. simpl.
    destruct style; simpl; intros [= <-]; first [done|by eexists].
Qed.

Lemma extract_parameters_input_data (dp : DataPassing)
    (ps : list FuncParameter) :
  ∀ st st', extract_parameters dp st ps = Ok st' →
  ∃ new_in, l_inputs st' = l_inputs st ++ new_in
            ∧ Forall2 (input_data_from_parameter dp) (input_parameters ps)
                new_in.
Proof.
  induction ps as [|p ps IH]; intros st st'; simpl.
  - intros [= <-]. exists []. by rewrite app_nil_r.
  - destruct (extract_parameter dp st p) as [st1|e] eqn:Hstep; [|done].
    simpl. intros Hrest. apply extract_parameter_input_data in Hstep.
    apply IH in Hrest as (new_in & Hin & Hall).
    unfold input_parameters in *.
    destruct (is_output_parameter p) eqn:Hp.
    + rewrite filter_cons_False by (rewrite Hp; done).
      exists new_in. by rewrite Hin, Hstep.
    + destruct Hstep as (i & Hi & Hdata).
      rewrite filter_cons_True by done.
      exists (i :: new_in). rewrite Hin, Hi, <- app_assoc.
      split; [done|]. by constructor.
Qed.

(** X8: each input carries the type name of its parameter's annotation, taken
    without the marker.  It has a default exactly when the parameter has a
    default other than [None], and then it is that value serialized for the
    type of the input; an input with a default is optional. *)
Theorem input_types_and_defaults (dp : DataPassing) (func : Function)
    (spec : ComponentSpec) :
  _extract_component_interface dp func = Ok spec →
  Forall2 (input_data_from_parameter dp) (input_parameters (parameters func))
    (inputs spec)
  ∧ Forall (λ i, input_default i ≠ None → input_optional i = true)
      (inputs spec).
Proof.
  intros Hok.
  pose proof (extract_component_interface_ok _ _ _ Hok)
    as (_ & _ & _ & Fin & _).
  assert (Forall2 (input_data_from_parameter dp)
            (input_parameters (parameters func)) (inputs spec)) as Hdata.
  { unfold _extract_component_interface in Hok.
    destruct (extract_parameters dp _ (parameters func)) as [st|e] eqn:Hloop;
      [|done].
    simpl in Hok. injection Hok as <-. simpl.
    apply extract_parameters_input_data in Hloop as (new_in & Hin & Hall).
    destruct (extract_return_ok dp st (return_annotation func))
      as (ret & -> & _).
    by rewrite Hin. }
  split; [done|].
  apply Forall_forall. intros i Hi Hdef.
  apply list_elem_of_lookup in Hi as [k Hk].
  destruct (Forall2_lookup_r _ _ _ _ _ Fin Hk) as (p & Hp & _ & _ & Hopt).
  destruct (Forall2_lookup_r _ _ _ _ _ Hdata Hk) as (p' & Hp' & _ & Hd).
  rewrite Hp in Hp'. injection Hp' as <-.
  rewrite Hopt. unfold has_default. apply bool_decide_eq_true.
  intros Hempty. rewrite Hempty in Hd. done.
Qed.

Lemma input_types_and_defaults_witness :
  ∃ spec, _extract_component_interface dp_sample train = Ok spec
          ∧ Forall (λ i, input_default i ≠ None → input_optional i = true)
              (inputs spec).
Proof.
  assert (∃ spec, _extract_component_interface dp_sample train = Ok spec)
    as [spec Hspec] by (eexists; vm_compute; reflexivity).
  exists spec. split; [done|].
  apply (input_types_and_defaults dp_sample train spec Hspec).
Defined.

(** Names that differ from each other and from the used ones are kept. *)
Lemma resolve_names_distinct (used : gset string) (l : list string) :
  NoDup l → (∀ x, x ∈ l → x ∉ used) → resolve_names used l = l.
Proof.
  revert used. induction l as [|n l IH]; intros used Hnd Hfree; [done|].
  apply NoDup_cons in Hnd as [Hn Hnd]. simpl.
  rewrite make_name_unique_free by (apply Hfree; left).
  f_equal. apply IH; [done|].
  intros x Hx. pose proof (Hfree x (list_elem_of_further _ _ _ Hx)).
  set_solver.
Qed.

(** X9: without a collision nothing is renamed: when the external names of the
    input parameters differ from each other, the inputs bear exactly these
    names, and likewise for the outputs with the external names of the
    output parameters followed by the names from the return annotation. *)
Theorem names_kept_without_collision (dp : DataPassing) (func : Function)
    (spec : ComponentSpec) :
  _extract_component_interface dp func = Ok spec →
  (NoDup (external_name <$> input_parameters (parameters func)) →
   input_name <$> inputs spec
   = external_name <$> input_parameters (parameters func))
  ∧ (NoDup ((external_name <$> output_parameters (parameters func))
              ++ return_names (return_annotation func)) →
     output_name <$> outputs spec
     = (external_name <$> output_parameters (parameters func))
         ++ return_names (return_annotation func)).
Proof.
  intros Hok.
  apply extract_component_interface_ok in Hok
    as (_ & _ & _ & _ & _ & _ & Nin & Nout).
  split; intros Hnd.
  - rewrite Nin. apply resolve_names_distinct; [done|set_solver].
  - rewrite Nout. apply resolve_names_distinct; [done|set_solver].
Qed.

Lemma names_kept_without_collision_witness :
  ∃ spec, _extract_component_interface dp_sample add_multiply = Ok spec
          ∧ input_name <$> inputs spec = ["a"; "b"]
          ∧ output_name <$> outputs spec = ["sum"; "product"].
Proof.
  assert (∃ spec, _extract_component_interface dp_sample add_multiply = Ok spec)
    as [spec Hspec] by (eexists; vm_compute; reflexivity).
  exists spec. split; [done|].
  destruct (names_kept_without_collision dp_sample add_multiply spec Hspec)
    as [Hin Hout].
  split.
  - apply Hin. vm_compute. repeat constructor; set_solver.
  - apply Hout. vm_compute. repeat constructor; set_solver.
Defined.

End InterfaceData.

(** ** Stripping and collapsing text *)

Module TextFacts.
Import PyStr Structures PythonOp Shape Samples CaptureFacts TemplateFacts.

Lemma runs_le_mono (p : ascii → bool) (k : nat) (s : string) :
  ∀ n m, m ≤ n → runs_le p k n s = true → runs_le p k m s = true.
Proof.
  destruct s as [|c s]; intros n m Hle; cbn [runs_le]; [done|].
  destruct (p c); [|done].
  intros [Hn Hs]%andb_prop. apply Nat.leb_le in Hn.
  apply andb_true_intro. split; [apply Nat.leb_le; lia|].
  clear Hn. revert n m Hle Hs.
  induction s as [|c' s IH]; intros n m Hle; cbn [runs_le]; [done|].
  destruct (p c'); [|done].
  intros [Hn Hs]%andb_prop. apply Nat.leb_le in Hn.
  apply andb_true_intro. split; [apply Nat.leb_le; lia|].
  apply (IH (S n)); [lia|done].
Qed.

Lemma lstrip_runs_le (p q : ascii → bool) (k : nat) (s : string) :
  ∀ n, runs_le p k n s = true → runs_le p k 0 (lstrip q s) = true.
Proof.
  induction s as [|c s IH]; intros n Hs; [done|]. cbn [lstrip].
  destruct (q c).
  - cbn [runs_le] in Hs. destruct (p c); [|by eapply IH].
    apply andb_prop in Hs as [_ Hs]. by eapply IH.
  - eapply runs_le_mono; [|exact Hs]. lia.
Qed.

Lemma rstrip_runs_le (p q : ascii → bool) (k : nat) (s : string) :
  ∀ n, runs_le p k n s = true → runs_le p k n (rstrip q s) = true.
Proof.
  induction s as [|c s IH]; intros n Hs; [done|]. cbn [rstrip].
  cbn [runs_le] in Hs. destruct (rstrip q s) as [|c' r] eqn:Hr.
  - destruct (q c); [done|]. cbn [runs_le].
    destruct (p c); [|done]. apply andb_prop in Hs as [-> _]. done.
  - cbn [runs_le]. destruct (p c).
    + apply andb_prop in Hs as [-> Hs]. rewrite andb_true_l. by apply IH.
    + by apply IH.
Qed.

Lemma lstrip_starts (q : ascii → bool) (s : string) :
  starts_with_char q (lstrip q s) = false.
Proof.
  induction s as [|c s IH]; [done|]. cbn [lstrip].
  destruct (q c) eqn:Hc; [done|]. simpl. done.
Qed.

Lemma rstrip_starts (q : ascii → bool) (s : string) :
  starts_with_char q s = false → starts_with_char q (rstrip q s) = false.
Proof.
  destruct s as [|c s]; [done|]. simpl. intros Hc.
  destruct (rstrip q s); [by rewrite Hc|done].
Qed.

Lemma rstrip_ends (q : ascii → bool) (s : string) :
  ends_with_char q (rstrip q s) = false.
Proof.
  induction s as [|c s IH]; [done|]. cbn [rstrip].
  destruct (rstrip q s) as [|c' r] eqn:Hr.
  - destruct (q c) eqn:Hc; [done|]. simpl. done.
  - done.
Qed.

(** A text stripped of the characters [q] neither starts nor ends with one,
    and keeps the bound on the runs of [p]. *)
Lemma strip_normal (p q : ascii → bool) (k n : nat) (s : string) :
  runs_le p k n s = true →
  starts_with_char q (strip q s) = false
  ∧ ends_with_char q (strip q s) = false
  ∧ runs_le p k 0 (strip q s) = true.
Proof.
  intros Hs. unfold strip. split_and!.
  - apply rstrip_starts, lstrip_starts.
  - apply rstrip_ends.
  - by eapply rstrip_runs_le, lstrip_runs_le.
Qed.

Lemma append_char_runs_le (p : ascii → bool) (k : nat) (c : ascii)
    (s : string) :
  1 ≤ k →
  ∀ n, (s = "" → n < k) →
  ends_with_char p s = false → runs_le p k n s = true →
  runs_le p k n (s +:+ String c "") = true.
Proof.
  intros Hk. induction s as [|a s IH]; intros n Hn He Hs.
  - rewrite append_nil_l. cbn [runs_le]. destruct (p c); [|done].
    rewrite andb_true_r. apply Nat.leb_le. specialize (Hn eq_refl). lia.
  - rewrite append_cons. cbn [runs_le] in *. destruct s as [|b s].
    + cbn [ends_with_char] in He. rewrite He in *. rewrite append_nil_l.
      cbn [runs_le]. destruct (p c); [|done].
      rewrite andb_true_r. apply Nat.leb_le. lia.
    + destruct (p a).
      * apply andb_prop in Hs as [-> Hs]. rewrite andb_true_l.
        by apply IH.
      * apply IH; [done|done|done].
Qed.

(** Collapsing the blank lines leaves no run of more than two newlines. *)
Lemma sub_blank_lines_runs_le (s : string) :
  ∀ n, runs_le is_newline 2 (n `min` 2) (sub_blank_lines n s) = true.
Proof.
  induction s as [|c s IH]; intros n; [done|]. cbn [sub_blank_lines].
  fold is_newline. destruct (is_newline c) eqn:Hc.
  - destruct (Nat.ltb_spec n 2).
    + cbn [runs_le]. rewrite Hc. replace (n `min` 2) with n by lia.
      specialize (IH (S n)). replace (S n `min` 2) with (S n) in IH by lia.
      rewrite IH, andb_true_r. apply Nat.leb_le. lia.
    + specialize (IH (S n)). replace (S n `min` 2) with 2 in IH by lia.
      by replace (n `min` 2) with 2 by lia.
  - cbn [runs_le]. rewrite Hc. apply (IH 0).
Qed.

(** X10: the command of a component is [python3 -u -c] and the program
    text, preceded, only when the list of packages to install is not empty,
    by [sh -c] and a shell line that installs the packages with pip, tries
    again with [--user] if that fails, and then runs the rest of the command.
    The program text ends with a newline, neither starts with a newline nor
    has one before the final newline, and holds no run of more than two
    newlines, that is no two blank lines in a row. *)
Theorem program_text_normal_form (py : Interpreter) (dp : DataPassing)
    (func : Function) (opts : Options) (spec : ComponentSpec) :
  _func_to_component_spec py dp func opts = Ok spec →
  ∃ body,
    command <$> implementation spec
    = Some (match packages_to_install opts with
            | Some (package :: packages) =>
                let pip_install :=
                  "PIP_DISABLE_PIP_VERSION_CHECK=1 python3 -m pip install --quiet --no-warn-script-location "
                    +:+ join " " (repr py <$> package :: packages) in
                [Str "sh"; Str "-c";
                 Str ("(" +:+ pip_install +:+ " || " +:+ pip_install
                      +:+ " --user) && " +:+ dq +:+ "$0" +:+ dq +:+ " "
                      +:+ dq +:+ "$@" +:+ dq)]
            | _ => []
            end
            ++ [Str "python3"; Str "-u"; Str "-c"; Str (body +:+ nl)])
    ∧ starts_with_char is_newline body = false
    ∧ ends_with_char is_newline body = false
    ∧ runs_le is_newline 2 0 (body +:+ nl) = true.
Proof.
  intros Hok.
  apply func_to_component_spec_ok in Hok
    as (img & calls & cs & func_code & st & _ & _ & _ & _ & ->).
  simpl. unfold generate_full_source.
  destruct (output_serializers _ _ _ _) as [strings defs].
  match goal with
  | |- context [strip _ (sub_blank_lines 0 ?t)] => set (full_source := t)
  end.
  exists (strip (is_char "010") (sub_blank_lines 0 full_source)).
  destruct (strip_normal is_newline is_newline 2 0
              (sub_blank_lines 0 full_source)
              (sub_blank_lines_runs_le full_source 0))
    as (Hstart & Hend & Hruns).
  split_and!; [|done|done|].
  - by destruct (packages_to_install opts) as [[|package packages]|].
  - apply append_char_runs_le; [lia|lia|done|done].
Qed.

Lemma program_text_normal_form_witness :
  ∃ spec body,
    _func_to_component_spec py_sample dp_sample train default_options
    = Ok spec
    ∧ command <$> implementation spec
      = Some [Str "python3"; Str "-u"; Str "-c"; Str (body +:+ nl)]
    ∧ runs_le is_newline 2 0 (body +:+ nl) = true.
Proof.
  assert (∃ spec,
            _func_to_component_spec py_sample dp_sample train default_options
            = Ok spec) as [spec Hspec] by (eexists; vm_compute; reflexivity).
  destruct (program_text_normal_form _ _ _ _ _ Hspec)
    as (body & Hcmd & _ & _ & Hruns).
  by exists spec, body.
Defined.

Lemma all_chars_lstrip (p q : ascii → bool) (s : string) :
  all_chars p s = true → all_chars p (lstrip q s) = true.
Proof.
  induction s as [|c s IH]; [done|]. cbn [lstrip all_chars].
  intros [Hc Hs]%andb_prop. destruct (q c); [by apply IH|].
  cbn [all_chars]. by rewrite Hc, Hs.
Qed.

Lemma all_chars_rstrip (p q : ascii → bool) (s : string) :
  all_chars p s = true → all_chars p (rstrip q s) = true.
Proof.
  induction s as [|c s IH]; [done|]. cbn [rstrip all_chars].
  intros [Hc Hs]%andb_prop. specialize (IH Hs).
  destruct (rstrip q s) as [|c' r].
  - destruct (q c); [done|]. cbn [all_chars]. by rewrite Hc.
  - cbn [all_chars] in *. by rewrite Hc, IH.
Qed.

Lemma all_chars_sub_spaces (p : ascii → bool) (s : string) :
  ∀ prev, all_chars p s = true → all_chars p (sub_spaces prev s) = true.
Proof.
  induction s as [|c s IH]; intros prev; [done|].
  cbn [sub_spaces all_chars]. intros [Hc Hs]%andb_prop.
  destruct (is_char " " c); [destruct prev|]; cbn [all_chars];
    rewrite ?Hc, ?andb_true_l; by apply IH.
Qed.

Lemma replace_underscore (s : string) :
  all_chars not_underscore (replace "_" " " s) = true.
Proof.
  induction s as [|c s IH]; [done|]. cbn [replace all_chars].
  rewrite IH, andb_true_r. unfold not_underscore, is_char.
  destruct (Ascii.eqb_spec c "_"); [done|].
  by destruct (Ascii.eqb_spec c "_").
Qed.

Lemma sub_spaces_runs_le (s : string) :
  ∀ prev : bool,
    runs_le is_blank 1 (if prev then 1 else 0) (sub_spaces prev s) = true.
Proof.
  induction s as [|c s IH]; intros prev; [done|]. cbn [sub_spaces].
  fold is_blank. destruct (is_blank c) eqn:Hc.
  - destruct prev; [apply (IH true)|].
    cbn [runs_le]. rewrite Hc. apply (IH true).
  - cbn [runs_le]. rewrite Hc. apply (IH false).
Qed.

Lemma upper_lower_keep (c : ascii) :
  is_blank (upper c) = is_blank c
  ∧ is_blank (lower c) = is_blank c
  ∧ (not_underscore c = true →
     not_underscore (upper c) = true ∧ not_underscore (lower c) = true).
Proof. by destruct c as [[] [] [] [] [] [] [] []]. Qed.

Lemma map_lower_keep (s : string) :
  (∀ k n, runs_le is_blank k n (map_chars lower s) = runs_le is_blank k n s)
  ∧ ends_with_char is_blank (map_chars lower s) = ends_with_char is_blank s
  ∧ (all_chars not_underscore s = true →
     all_chars not_underscore (map_chars lower s) = true).
Proof.
  induction s as [|c s (IHr & IHe & IHa)]; [done|].
  destruct (upper_lower_keep c) as (_ & Hl & Hu).
  cbn [map_chars]. split_and!.
  - intros k n. cbn [runs_le]. by rewrite Hl, !IHr.
  - cbn [ends_with_char]. rewrite Hl. destruct s; [done|]. exact IHe.
  - cbn [all_chars]. intros [Hc Hs]%andb_prop.
    rewrite (proj2 (Hu Hc)). by rewrite IHa.
Qed.

(** X11: the name that a function name gives to its component holds no
    underscore, has no space at its start or end, and no two spaces in a
    row. *)
Theorem component_name_normal_form (name : string) :
  all_chars not_underscore (_python_function_name_to_component_name name)
  = true
  ∧ starts_with_char is_blank (_python_function_name_to_component_name name)
    = false
  ∧ ends_with_char is_blank (_python_function_name_to_component_name name)
    = false
  ∧ runs_le is_blank 1 0 (_python_function_name_to_component_name name)
    = true.
Proof.
  unfold _python_function_name_to_component_name. fold is_blank.
  set (t := sub_spaces false (replace "_" " " name)).
  assert (all_chars not_underscore (strip is_blank t) = true) as Hall.
  { apply all_chars_rstrip, all_chars_lstrip, all_chars_sub_spaces,
      replace_underscore. }
  destruct (strip_normal is_blank is_blank 1 0 t (sub_spaces_runs_le _ false))
    as (Hstart & Hend & Hruns).
  destruct (strip is_blank t) as [|c r]; [done|].
  destruct (upper_lower_keep c) as (Hu & _ & Hn).
  destruct (map_lower_keep r) as (Hr & He & Ha).
  cbn [capitalize all_chars starts_with_char runs_le] in *.
  apply andb_prop in Hall as [Hc Hall].
  rewrite Hu, (proj1 (Hn Hc)), (Ha Hall). split_and!; try done.
  - cbn [ends_with_char] in *. rewrite Hu.
    destruct r as [|c' r]; [done|]. exact (eq_trans He Hend).
  - rewrite Hstart in *. by rewrite Hr.
Qed.

End TextFacts.

(** ** The suffixes of file parameters and the default image *)

Module SuffixFacts.
Import PyStr Structures PythonOp Shape Samples.
Import CaptureFacts TemplateFacts ImageFacts TextFacts.

Lemma length_append (s t : string) :
  String.length (s +:+ t) = String.length s + String.length t.
Proof.
  induction s as [|c s IH]; [done|]. rewrite append_cons. simpl. by rewrite IH.
Qed.

Lemma substring_append_l (s t : string) :
  String.substring 0 (String.length s) (s +:+ t) = s.
Proof.
  induction s as [|c s IH].
  - rewrite append_nil_l. by destruct t.
  - rewrite append_cons. simpl. by rewrite IH.
Qed.

Lemma substring_append_r (s t : string) :
  String.substring (String.length s) (String.length t) (s +:+ t) = t.
Proof.
  induction s as [|c s IH].
  - rewrite append_nil_l. apply substring_all.
  - rewrite append_cons. simpl. exact IH.
Qed.

Lemma endswith_append (s suffix : string) :
  endswith (s +:+ suffix) suffix = true.
Proof.
  unfold endswith. rewrite length_append.
  replace (String.length s + String.length suffix - String.length suffix)
    with (String.length s) by lia.
  rewrite substring_append_r, String.eqb_refl, andb_true_r.
  apply Nat.leb_le. lia.
Qed.

Lemma endswith_append_other (s suffix other : string) :
  String.length other = String.length suffix → other ≠ suffix →
  endswith (s +:+ suffix) other = false.
Proof.
  intros Hlen Hne. unfold endswith. rewrite length_append, Hlen.
  replace (String.length s + String.length suffix - String.length suffix)
    with (String.length s) by lia.
  rewrite substring_append_r. apply andb_false_intro2.
  apply String.eqb_neq. congruence.
Qed.

Lemma drop_last_append (s suffix : string) :
  drop_last (String.length suffix) (s +:+ suffix) = s.
Proof.
  unfold drop_last. rewrite length_append.
  replace (String.length s + String.length suffix - String.length suffix)
    with (String.length s) by lia.
  apply substring_append_l.
Qed.

(** X12: the external name of a parameter annotated with a marker: a final
    [_file] is dropped for every marker; a final [_path] is dropped only for
    [InputPath] and [OutputPath], and a [_file] before it is then dropped as
    well. *)
Theorem file_suffixes_are_stripped (base : string) (style : PassingStyle)
    (type : Annotation) :
  strip_file_suffixes (Marker style type) (base +:+ "_file") = base
  ∧ (style ∈ [InputPath; OutputPath] →
     strip_file_suffixes (Marker style type) ((base +:+ "_file") +:+ "_path")
     = base
     ∧ (endswith base "_file" = false →
        strip_file_suffixes (Marker style type) (base +:+ "_path") = base))
  ∧ (style ∉ [InputPath; OutputPath] →
     strip_file_suffixes (Marker style type) (base +:+ "_path")
     = base +:+ "_path").
Proof.
  unfold strip_file_suffixes.
  pose proof (drop_last_append base "_file") as Hfile.
  pose proof (drop_last_append base "_path") as Hpath.
  pose proof (drop_last_append (base +:+ "_file") "_path") as Hboth.
  split_and!.
  - rewrite (endswith_append_other base "_file" "_path") by done.
    rewrite andb_false_r, endswith_append. exact Hfile.
  - intros Hstyle. cbn [isinstance]. rewrite bool_decide_eq_true_2 by done.
    rewrite !endswith_append. cbn [andb]. rewrite Hboth, Hpath.
    rewrite endswith_append. split; [exact Hfile|]. by intros ->.
  - intros Hstyle. cbn [isinstance]. rewrite bool_decide_eq_false_2 by done.
    cbn [andb].
    by rewrite (endswith_append_other base "_path" "_file").
Qed.

Lemma file_suffixes_are_stripped_witness :
  strip_file_suffixes (Marker OutputPath AnnNone) "model_file_path" = "model"
  ∧ strip_file_suffixes (Marker InputTextFile AnnNone) "log_path" = "log_path".
Proof.
  destruct (file_suffixes_are_stripped "model" OutputPath AnnNone)
    as (_ & Hpath & _).
  destruct (file_suffixes_are_stripped "log" InputTextFile AnnNone)
    as (_ & _ & Hstream).
  split.
  - refine (proj1 (Hpath _)). set_solver.
  - refine (Hstream _). set_solver.
Defined.

(** X13: setting the default image changes the image of the components of those
    functions only that have no image of their own: a component assembled
    after [set_default_base_image] has the explicit image, else the attached
    one, else the image that was set (the result of the factory, if one was
    set). *)
Theorem default_image_is_last_resort (py : Interpreter) (dp : DataPassing)
    (func : Function) (opts : Options) (image_or_factory : BaseImage)
    (spec : ComponentSpec) :
  _func_to_component_spec (set_default_base_image image_or_factory py) dp func
    opts = Ok spec →
  image <$> implementation spec
  = Some match base_image opts, _component_base_image func with
         | Some explicit, _ => explicit
         | None, Some attached => attached
         | None, None =>
             match image_or_factory with
             | ImageName name => name
             | ImageFactory factory => factory ()
             end
         end.
Proof.
  intros Hok.
  destruct (image_conflict func opts) eqn:Hc.
  - destruct (resolve_base_image_conflict
                (set_default_base_image image_or_factory py) _ _ Hc)
      as [msg Hmsg].
    unfold _func_to_component_spec in Hok. by rewrite Hmsg in Hok.
  - apply func_to_component_spec_ok in Hok
      as (img & calls & cs & func_code & st & Himg & _ & _ & _ & ->).
    rewrite resolve_base_image_ok in Himg by done.
    injection Himg as <- _. simpl. by f_equal.
Qed.

Lemma default_image_is_last_resort_witness :
  ∃ spec,
    _func_to_component_spec
      (set_default_base_image (ImageFactory (λ _, "python:3.7")) py_sample)
      dp_sample train default_options = Ok spec
    ∧ image <$> implementation spec = Some "python:3.7".
Proof.
  assert (∃ spec,
            _func_to_component_spec
              (set_default_base_image (ImageFactory (λ _, "python:3.7"))
                 py_sample)
              dp_sample train default_options = Ok spec)
    as [spec Hspec] by (eexists; vm_compute; reflexivity).
  exists spec. split; [done|].
  apply (default_image_is_last_resort _ _ _ _ _ _ Hspec).
Defined.

(** X14: the description of a component is the description attached to the
    function or else its docstring; an absent or empty text is passed on as
    it is, and a text of ASCII characters that is not empty becomes the text
    without the whitespace at its two ends, followed by one newline. *)
Theorem description_normal_form (dp : DataPassing) (func : Function)
    (spec : ComponentSpec) :
  _extract_component_interface dp func = Ok spec →
  match or_else (_component_description func) (__doc__ func) with
  | Some (String c d) =>
      all_chars is_ascii (String c d) = true →
      ∃ body, description spec = Some (body +:+ nl)
              ∧ body = strip is_space (String c d)
              ∧ starts_with_char is_space body = false
              ∧ ends_with_char is_space body = false
  | raw => description spec = raw
  end.
Proof.
  unfold _extract_component_interface.
  destruct (extract_parameters dp _ (parameters func)) as [st|e]; [|done].
  simpl. intros [= <-]. simpl.
  destruct (or_else _ _) as [[|c d]|]; [done| |done].
  intros _. eexists. split_and!; [done|done| |].
  - apply rstrip_starts, lstrip_starts.
  - apply rstrip_ends.
Qed.

Lemma description_normal_form_witness :
  ∃ spec,
    _extract_component_interface dp_sample train_documented = Ok spec
    ∧ description spec
      = Some ("Trains a model." +:+ nl +:+ nl
              +:+ "    Writes it to the given path." +:+ nl).
Proof.
  assert (∃ spec,
            _extract_component_interface dp_sample train_documented = Ok spec)
    as [spec Hspec] by (eexists; vm_compute; reflexivity).
  exists spec. split; [done|].
  destruct (description_normal_form dp_sample train_documented spec Hspec
              eq_refl) as (body & -> & -> & _).
  vm_compute. reflexivity.
Defined.

End SuffixFacts.

(** ** The args, descriptor by descriptor *)

Module TemplateClaims.
Import PyStr Naming Structures PythonOp Shape Samples.
Import InterfaceFacts TemplateFacts ProgramFacts.

Lemma input_template_item (i : InputSpec) :
  template_item (inl i) = input_item i.
Proof.
  unfold template_item, input_item, flag_of, placeholder_of, kebab_flag,
    input_placeholder. simpl.
  by destruct (input_optional i).
Qed.

(** A file output of an analysed interface has one of the three output
    styles, so its placeholder is the path of the output. *)
Lemma file_output_template_item (dp : DataPassing) (func : Function)
    (cs : ComponentSpec) :
  _extract_component_interface dp func = Ok cs →
  Forall (λ o, template_item (inr o) = file_output_item o)
    (file_outputs_passed_using_func_parameters cs).
Proof.
  intros Hok. destruct (outputs_split _ _ _ Hok) as (ret & _ & _ & Fout).
  eapply Forall2_Forall_r; [exact Fout|].
  apply Forall_forall. intros p Hp o (_ & Hs & _).
  apply list_elem_of_filter in Hp as [Hp _].
  unfold is_output_parameter in Hp.
  unfold template_item, file_output_item, flag_of, placeholder_of, kebab_flag.
  simpl. rewrite Hs.
  by destruct (marker_style p) as [[]|].
Qed.

Lemma concat_fmap_ext {A B : Type} (f g : A → list B) (l : list A) :
  Forall (λ x, f x = g x) l → concat (f <$> l) = concat (g <$> l).
Proof.
  induction 1 as [|x l Hx _ IH]; [done|]. by rewrite !fmap_cons, !concat_cons, Hx, IH.
Qed.

Lemma concat_fmap_split {A B : Type} (f : A → list B) (l : list A) (x : A) :
  x ∈ l →
  ∃ before after, concat (f <$> l) = before ++ f x ++ after.
Proof.
  intros (l1 & l2 & ->)%list_elem_of_split.
  exists (concat (f <$> l1)), (concat (f <$> l2)).
  by rewrite fmap_app, fmap_cons, concat_app, concat_cons.
Qed.

(** C6: the args of an assembled component begin with the items of its
    inputs, in order, followed by the items of its file outputs (the outputs
    that have a passing style), in order.  The item of a descriptor is its
    flag, two dashes and the name with hyphens for underscores, followed by
    its placeholder; an input that is not optional and every file output
    have this pair directly in the args, an optional input has it inside an
    [IfPlaceholder] whose condition is [IsPresentPlaceholder] of its name. *)
Theorem flagged_descriptors_in_args (py : Interpreter) (dp : DataPassing)
    (func : Function) (opts : Options) (spec : ComponentSpec) :
  _func_to_component_spec py dp func opts = Ok spec →
  (∃ tail,
     spec_args spec
     = concat (input_item <$> inputs spec)
         ++ concat (file_output_item
                      <$> filter (λ o, output_passing_style o ≠ None)
                            (outputs spec))
         ++ tail)
  ∧ (∀ i, i ∈ inputs spec →
       let pair :=
         [Str ("--" +:+ PyStr.replace "_" "-" (input_name i));
          input_placeholder i] in
       if input_optional i
       then IfPlaceholder (IsPresentPlaceholder (input_name i)) pair
              ∈ spec_args spec
       else ∃ before after, spec_args spec = before ++ pair ++ after)
  ∧ (∀ o, o ∈ outputs spec → output_passing_style o ≠ None →
       ∃ before after,
         spec_args spec
         = before
             ++ [Str ("--" +:+ PyStr.replace "_" "-" (output_name o));
                 OutputPathPlaceholder (output_name o)]
             ++ after).
Proof.
  intros Hok. pose proof (func_to_component_spec_args _ _ _ _ _ Hok) as Hargs.
  apply func_to_component_spec_ok in Hok
    as (img & calls & cs & func_code & st & _ & Hcs & _ & _ & ->).
  simpl in *.
  pose proof (file_output_template_item _ _ _ Hcs) as Hfile.
  unfold file_outputs_passed_using_func_parameters in Hfile.
  set (file_outputs := filter (λ o, output_passing_style o ≠ None)
                         (outputs cs)) in *.
  assert (spec_args
            {| name := name cs; description := description cs;
               inputs := inputs cs; outputs := outputs cs;
               implementation :=
                 Some {| image := img;
                         command :=
                           package_preinstallation_command py
                             (default [] (packages_to_install opts))
                             ++ [Str "python3"; Str "-u"; Str "-c";
                                 Str (generate_full_source py dp func opts cs
                                        func_code
                                        (scaffold_return_outputs cs st))];
                         args := arguments (scaffold_return_outputs cs st) |}
            |}
          = concat (input_item <$> inputs cs)
              ++ concat (file_output_item <$> file_outputs)
              ++ output_paths_block cs) as Hshape.
  { rewrite Hargs. unfold flagged_specs. simpl.
    fold (file_outputs_passed_using_func_parameters cs).
    unfold file_outputs_passed_using_func_parameters. fold file_outputs.
    rewrite fmap_app, concat_app, <- !list_fmap_compose, <- app_assoc.
    f_equal; [|f_equal].
    - apply concat_fmap_ext, Forall_forall. intros i _.
      apply input_template_item.
    - by apply concat_fmap_ext. }
  rewrite Hshape. split_and!.
  - by eexists.
  - intros i Hi. cbv zeta.
    destruct (concat_fmap_split input_item _ _ Hi) as (before & after & ->).
    unfold input_item, kebab_flag.
    destruct (input_optional i).
    + apply elem_of_app. left. apply elem_of_app. right.
      apply elem_of_cons. by left.
    + eexists before, _. by rewrite <- !app_assoc.
  - intros o Ho Hstyle.
    assert (o ∈ file_outputs) as Hin by by apply list_elem_of_filter.
    destruct (concat_fmap_split file_output_item _ _ Hin)
      as (before & after & ->).
    exists (concat (input_item <$> inputs cs) ++ before),
      (after ++ output_paths_block cs).
    unfold file_output_item, kebab_flag. by rewrite <- !app_assoc.
Qed.

Lemma flagged_descriptors_in_args_witness :
  ∃ spec,
    _func_to_component_spec py_sample dp_sample train default_options
    = Ok spec
    ∧ spec_args spec
      = [Str "--epochs"; InputValuePlaceholder "epochs";
         IfPlaceholder (IsPresentPlaceholder "rate")
           [Str "--rate"; InputValuePlaceholder "rate"];
         Str "--model"; OutputPathPlaceholder "model"].
Proof.
  assert (∃ spec,
            _func_to_component_spec py_sample dp_sample train default_options
            = Ok spec
            ∧ concat (input_item <$> inputs spec)
                ++ concat (file_output_item
                             <$> filter (λ o, output_passing_style o ≠ None)
                                   (outputs spec))
              = [Str "--epochs"; InputValuePlaceholder "epochs";
                 IfPlaceholder (IsPresentPlaceholder "rate")
                   [Str "--rate"; InputValuePlaceholder "rate"];
                 Str "--model"; OutputPathPlaceholder "model"]
            ∧ length (spec_args spec) = 5)
    as (spec & Hspec & Hitems & Hlen)
    by (eexists; vm_compute; split_and!; reflexivity).
  exists spec. split; [done|].
  destruct (flagged_descriptors_in_args _ _ _ _ _ Hspec) as [[tail Htail] _].
  rewrite app_assoc, Hitems in Htail.
  rewrite Htail in Hlen. rewrite length_app in Hlen. simpl in Hlen.
  destruct tail; [|simpl in Hlen; lia].
  by rewrite Htail, app_nil_r.
Defined.

End TemplateClaims.

(** ** Where a line ends up in the generated program *)

Module OccurFacts.
Import PyStr Naming Structures PythonOp Shape Samples.
Import CaptureFacts TextFacts.

Lemma occurs_in_refl (s : string) : occurs_in s s.
Proof. exists "", "". by rewrite append_nil_l, append_nil_r. Qed.

Lemma occurs_in_app_l (p x s : string) :
  occurs_in p s → occurs_in p (x +:+ s).
Proof.
  intros (a & b & ->). exists (x +:+ a), b. by rewrite append_assoc.
Qed.

Lemma occurs_in_app_r (p s y : string) :
  occurs_in p s → occurs_in p (s +:+ y).
Proof.
  intros (a & b & ->). exists a, (b +:+ y). by rewrite !append_assoc.
Qed.

Lemma occurs_in_join (sep line : string) (l : list string) :
  line ∈ l → occurs_in line (join sep l).
Proof.
  induction l as [|x l IH]; intros Hin; [by apply elem_of_nil in Hin|].
  apply elem_of_cons in Hin as [->|Hin].
  - destruct l as [|y l]; cbn [join]; [apply occurs_in_refl|].
    exists "", (sep +:+ join sep (y :: l)). by rewrite append_nil_l.
  - destruct l as [|y l]; [by apply elem_of_nil in Hin|]. cbn [join].
    by apply occurs_in_app_l, occurs_in_app_l, IH.
Qed.

Lemma sub_blank_lines_append (s t : string) :
  ∀ n, ∃ m,
    sub_blank_lines n (s +:+ t) = sub_blank_lines n s +:+ sub_blank_lines m t.
Proof.
  induction s as [|c s IH]; intros n.
  - exists n. by rewrite !append_nil_l.
  - rewrite append_cons. cbn [sub_blank_lines].
    destruct (is_char "010" c).
    + destruct (IH (S n)) as [m ->]. exists m.
      by destruct (n <? 2)%nat.
    + destruct (IH 0) as [m ->]. by exists m.
Qed.

Lemma sub_blank_lines_start (s : string) (n : nat) :
  starts_with_char is_newline s = false →
  sub_blank_lines n s = sub_blank_lines 0 s.
Proof.
  destruct s as [|c s]; [done|]. cbn [starts_with_char sub_blank_lines].
  unfold is_newline. by intros ->.
Qed.

Lemma occurs_in_sub_blank_lines (p s : string) (n : nat) :
  starts_with_char is_newline p = false →
  occurs_in p s →
  occurs_in (sub_blank_lines 0 p) (sub_blank_lines n s).
Proof.
  intros Hp (a & b & ->).
  destruct (sub_blank_lines_append a (p +:+ b) n) as [m ->].
  destruct (sub_blank_lines_append p b m) as [m' ->].
  rewrite (sub_blank_lines_start p m Hp). by eexists _, _.
Qed.

(** A text without a newline is left as it is. *)
Lemma sub_blank_lines_no_newline (s : string) (n : nat) :
  all_chars not_newline s = true → sub_blank_lines n s = s.
Proof.
  revert n. induction s as [|c s IH]; intros n; [done|].
  cbn [all_chars sub_blank_lines]. intros [Hc Hs]%andb_prop.
  unfold not_newline, is_newline in Hc. apply negb_true_iff in Hc.
  by rewrite Hc, IH.
Qed.

Lemma starts_with_char_append (q : ascii → bool) (p b : string) :
  p ≠ "" → starts_with_char q (p +:+ b) = starts_with_char q p.
Proof. by destruct p. Qed.

Lemma ends_with_char_append (q : ascii → bool) (a p : string) :
  p ≠ "" → ends_with_char q (a +:+ p) = ends_with_char q p.
Proof.
  intros Hp. induction a as [|c a IH]; [by rewrite append_nil_l|].
  rewrite append_cons. cbn [ends_with_char].
  destruct (a +:+ p) eqn:Hap; [|done].
  destruct a; [by rewrite append_nil_l in Hap|done].
Qed.

Lemma lstrip_append (q : ascii → bool) (a p : string) :
  p ≠ "" → starts_with_char q p = false →
  lstrip q (a +:+ p) = lstrip q a +:+ p.
Proof.
  intros Hp Hs. induction a as [|c a IH].
  - rewrite !append_nil_l. destruct p as [|c p]; [done|].
    cbn [starts_with_char] in Hs. cbn [lstrip]. by rewrite Hs.
  - rewrite append_cons. cbn [lstrip]. destruct (q c); [done|].
    by rewrite append_cons.
Qed.

Lemma rstrip_append (q : ascii → bool) (p b : string) :
  p ≠ "" → ends_with_char q p = false →
  rstrip q (p +:+ b) = p +:+ rstrip q b.
Proof.
  induction p as [|c p IH]; [done|]. intros _ He.
  rewrite !append_cons. cbn [rstrip]. destruct p as [|c' p].
  - rewrite !append_nil_l. cbn [ends_with_char] in He.
    destruct (rstrip q b); [by rewrite He|done].
  - rewrite IH by done. by rewrite append_cons.
Qed.

(** Stripping keeps a piece of text that neither starts nor ends with a
    stripped character. *)
Lemma occurs_in_strip (q : ascii → bool) (p s : string) :
  p ≠ "" → starts_with_char q p = false → ends_with_char q p = false →
  occurs_in p s → occurs_in p (strip q s).
Proof.
  intros Hp Hs He (a & b & ->). unfold strip.
  assert (p +:+ b ≠ "") as Hpb by by destruct p.
  rewrite lstrip_append; [|done|by rewrite starts_with_char_append].
  rewrite <- append_assoc.
  assert (lstrip q a +:+ p ≠ "") as Hap.
  { destruct (lstrip q a); [by rewrite append_nil_l|done]. }
  rewrite rstrip_append; [|done|by rewrite ends_with_char_append].
  rewrite append_assoc. by eexists _, _.
Qed.

(** Collapsing the blank lines keeps the first and the last character of a
    text that neither starts nor ends with a newline. *)
Lemma sub_blank_lines_ends (s : string) :
  s ≠ "" → ends_with_char is_newline s = false →
  ∀ n, sub_blank_lines n s ≠ ""
       ∧ ends_with_char is_newline (sub_blank_lines n s) = false.
Proof.
  induction s as [|c s IH]; [done|]. intros _ He n.
  cbn [sub_blank_lines]. fold is_newline.
  destruct s as [|c' s].
  - cbn [ends_with_char] in He. rewrite He. by cbn.
  - assert (String c' s ≠ "") as Hne by done.
    cbn [ends_with_char] in He.
    destruct (is_newline c); [destruct (n <? 2)%nat|].
    + destruct (IH Hne He (S n)) as [Hn Hend]. split; [done|].
      cbn [ends_with_char]. by destruct (sub_blank_lines (S n) (String c' s)).
    + apply (IH Hne He).
    + destruct (IH Hne He 0) as [Hn Hend]. split; [done|].
      cbn [ends_with_char]. by destruct (sub_blank_lines 0 (String c' s)).
Qed.

Lemma sub_blank_lines_starts (s : string) :
  starts_with_char is_newline s = false →
  starts_with_char is_newline (sub_blank_lines 0 s) = false.
Proof.
  destruct s as [|c s]; [done|]. cbn [starts_with_char sub_blank_lines].
  fold is_newline. intros Hc. by rewrite Hc.
Qed.

(** A piece of the text handed to the template that neither starts nor ends
    with a newline is found, with its blank lines collapsed, in the final
    program. *)
Lemma occurs_in_final_source (piece full_source : string) :
  piece ≠ "" →
  starts_with_char is_newline piece = false →
  ends_with_char is_newline piece = false →
  occurs_in piece full_source →
  occurs_in (sub_blank_lines 0 piece)
    (strip (is_char "010") (sub_blank_lines 0 full_source) +:+ nl).
Proof.
  intros Hne Hs He Hocc.
  destruct (sub_blank_lines_ends piece Hne He 0) as [Hne' He'].
  apply occurs_in_app_r, occurs_in_strip; try done.
  - by apply sub_blank_lines_starts.
  - by apply occurs_in_sub_blank_lines.
Qed.

Lemma occurs_in_template_lines (line pre_func_code extra_code func_code
    func_name output_serialization_code : string) (lines : list string) :
  line ∈ lines →
  occurs_in line
    (full_source_template pre_func_code extra_code func_code (join nl lines)
       func_name output_serialization_code).
Proof.
  intros Hin. unfold full_source_template.
  do 6 apply occurs_in_app_l. by apply occurs_in_app_r, occurs_in_join.
Qed.

Lemma occurs_in_middle (x a n b y : string) :
  occurs_in (a +:+ n +:+ b) (x +:+ a +:+ n +:+ b +:+ y).
Proof. exists x, y. by rewrite !append_assoc. Qed.

Lemma occurs_in_template_call (pre_func_code extra_code func_code
    arg_parse_code func_name output_serialization_code : string) :
  occurs_in ("_outputs = " +:+ func_name +:+ "(" +:+ "**_parsed_args)")
    (full_source_template pre_func_code extra_code func_code arg_parse_code
       func_name output_serialization_code).
Proof.
  unfold full_source_template. do 7 apply occurs_in_app_l.
  eapply (occurs_in_middle (nl +:+ nl) "_outputs = " func_name
            ("(" +:+ "**_parsed_args)")).
Qed.

(** Every line of the parser code occurs in the generated program. *)
Lemma parser_line_in_program (py : Interpreter) (dp : DataPassing)
    (func : Function) (opts : Options) (cs : ComponentSpec)
    (func_code : string) (st : Scaffold) (line : string) :
  line ∈ arg_parse_code_lines st →
  line ≠ "" →
  starts_with_char is_newline line = false →
  ends_with_char is_newline line = false →
  occurs_in (sub_blank_lines 0 line)
    (generate_full_source py dp func opts cs func_code st).
Proof.
  intros Hin Hne Hs He. unfold generate_full_source.
  destruct (output_serializers _ _ _ _) as [strings defs].
  apply occurs_in_final_source; try done.
  apply occurs_in_template_lines.
  apply elem_of_app. left. apply elem_of_app. by right.
Qed.

Lemma call_in_program (py : Interpreter) (dp : DataPassing)
    (func : Function) (opts : Options) (cs : ComponentSpec)
    (func_code : string) (st : Scaffold) :
  occurs_in
    (sub_blank_lines 0
       ("_outputs = " +:+ __name__ func +:+ "(" +:+ "**_parsed_args)"))
    (generate_full_source py dp func opts cs func_code st).
Proof.
  unfold generate_full_source.
  destruct (output_serializers _ _ _ _) as [strings defs].
  apply occurs_in_final_source; [done|done| |apply occurs_in_template_call].
  rewrite <- !append_assoc. by rewrite ends_with_char_append.
Qed.

Lemma add_argument_line_ends (param_flag param_var param_type : string)
    (is_required : bool) :
  add_argument_line param_flag param_var param_type is_required ≠ ""
  ∧ starts_with_char is_newline
      (add_argument_line param_flag param_var param_type is_required) = false
  ∧ ends_with_char is_newline
      (add_argument_line param_flag param_var param_type is_required) = false.
Proof.
  split_and!; [done|done|].
  unfold add_argument_line. rewrite <- !append_assoc.
  by rewrite ends_with_char_append.
Qed.

Lemma output_paths_line_ends (nargs : nat) :
  output_paths_line nargs ≠ ""
  ∧ starts_with_char is_newline (output_paths_line nargs) = false
  ∧ ends_with_char is_newline (output_paths_line nargs) = false.
Proof.
  split_and!; [done|done|].
  unfold output_paths_line. rewrite <- !append_assoc.
  by rewrite ends_with_char_append.
Qed.

End OccurFacts.

(** ** The parser of the generated program *)

Module ProgramClaims.
Import PyStr Naming Structures PythonOp Shape Samples.
Import InterfaceFacts TemplateFacts ProgramFacts CaptureFacts TextFacts.
Import OccurFacts.

Lemma parameter_is_flagged (ps : list FuncParameter) (p : FuncParameter) :
  p ∈ ps → p ∈ input_parameters ps ++ output_parameters ps.
Proof.
  intros Hp. apply elem_of_app.
  destruct (is_output_parameter p) eqn:Hout.
  - right. by apply list_elem_of_filter.
  - left. by apply list_elem_of_filter.
Qed.

Lemma flagged_spec_descriptor (cs : ComponentSpec) (x : IOSpec)
    (parameter_name : string) :
  x ∈ flagged_specs cs →
  io_parameter_name x = Ok parameter_name →
  (∃ i, i ∈ inputs cs ∧ input_parameter_name i = parameter_name
        ∧ input_name i = io_name x)
  ∨ (∃ o, o ∈ outputs cs ∧ output_parameter_name o = Some parameter_name
          ∧ output_name o = io_name x).
Proof.
  unfold flagged_specs. intros [Hx|Hx]%elem_of_app Hname.
  - apply list_elem_of_fmap in Hx as (i & -> & Hi). left. exists i.
    simpl in Hname. by injection Hname as ->.
  - apply list_elem_of_fmap in Hx as (o & -> & Ho). right. exists o.
    apply list_elem_of_filter in Ho as [_ Ho]. simpl in Hname.
    destruct (output_parameter_name o); [|done]. by injection Hname as ->.
Qed.

(** C10: the generated program is the last item of the command, and for
    every parameter of the function it holds an [add_argument] line whose
    flag is made from the public name of the parameter's descriptor (the
    input or output that carries the parameter's name as [_parameter_name])
    and whose [dest] is the parameter's own name; it also holds the line
    that calls the function with the parsed arguments as keywords.  The
    lines are found as the removal of consecutive blank lines leaves them,
    which is unchanged for a line without a newline. *)
Theorem parser_dest_is_parameter_name (py : Interpreter) (dp : DataPassing)
    (func : Function) (opts : Options) (spec : ComponentSpec) :
  _func_to_component_spec py dp func opts = Ok spec →
  ∃ text,
    program_text spec = Some (Str text)
    ∧ (∀ p, p ∈ parameters func →
         ∃ (public_name param_type : string) (is_required : bool),
           let line :=
             "_parser.add_argument(" +:+ dq
               +:+ ("--" +:+ PyStr.replace "_" "-" public_name) +:+ dq
               +:+ ", dest=" +:+ dq +:+ parameter_name p +:+ dq
               +:+ ", type=" +:+ param_type +:+ ", required="
               +:+ (if is_required then "True" else "False")
               +:+ ", default=argparse.SUPPRESS)" in
           ((∃ i, i ∈ inputs spec
                  ∧ input_parameter_name i = parameter_name p
                  ∧ input_name i = public_name)
            ∨ (∃ o, o ∈ outputs spec
                    ∧ output_parameter_name o = Some (parameter_name p)
                    ∧ output_name o = public_name))
           ∧ occurs_in (sub_blank_lines 0 line) text
           ∧ (all_chars not_newline line = true → occurs_in line text))
    ∧ let call :=
        "_outputs = " +:+ __name__ func +:+ "(" +:+ "**_parsed_args)" in
      occurs_in (sub_blank_lines 0 call) text
      ∧ (all_chars not_newline call = true → occurs_in call text).
Proof.
  intros Hok.
  apply func_to_component_spec_ok in Hok
    as (img & calls & cs & func_code & st & _ & Hcs & _ & Hst & ->).
  pose proof (flagged_specs_parameters _ _ _ Hcs) as Hpar.
  apply scaffold_inputs_ok in Hst as (_ & lines & Hlines & Hall).
  eexists. split_and!.
  - unfold program_text. simpl. by rewrite last_app.
  - intros p Hp. apply parameter_is_flagged in Hp.
    apply list_elem_of_lookup in Hp as [k Hk].
    destruct (Forall2_lookup_l _ _ _ _ _ Hpar Hk) as (x & Hx & Hname).
    destruct (Forall2_lookup_l _ _ _ _ _ Hall Hx)
      as (line & Hline & param_var & param_type & Hvar & ->).
    rewrite Hname in Hvar. injection Hvar as <-.
    exists (io_name x), param_type, (io_is_required x). cbv zeta.
    assert (occurs_in
              (sub_blank_lines 0
                 (add_argument_line (param_flag_of x) (parameter_name p)
                    param_type (io_is_required x)))
              (generate_full_source py dp func opts cs func_code
                 (scaffold_return_outputs cs st))) as Hocc.
    { destruct (add_argument_line_ends (param_flag_of x) (parameter_name p)
                  param_type (io_is_required x)) as (Hne & Hs & He).
      apply parser_line_in_program; try done.
      rewrite scaffold_return_outputs_lines, Hlines.
      apply elem_of_app. left. apply elem_of_app. right.
      by eapply list_elem_of_lookup_2. }
    split_and!.
    + eapply flagged_spec_descriptor; [|done].
      by eapply list_elem_of_lookup_2.
    + exact Hocc.
    + intros Hnl. by rewrite sub_blank_lines_no_newline in Hocc.
  - cbv zeta. pose proof (call_in_program py dp func opts cs func_code
                            (scaffold_return_outputs cs st)) as Hocc.
    split; [exact Hocc|].
    intros Hnl. by rewrite sub_blank_lines_no_newline in Hocc.
Qed.

Lemma parser_dest_is_parameter_name_witness :
  ∃ spec text,
    _func_to_component_spec py_sample dp_sample train default_options
    = Ok spec
    ∧ program_text spec = Some (Str text)
    ∧ occurs_in
        (sub_blank_lines 0
           ("_outputs = " +:+ "train" +:+ "(" +:+ "**_parsed_args)"))
        text.
Proof.
  assert (∃ spec,
            _func_to_component_spec py_sample dp_sample train default_options
            = Ok spec) as [spec Hspec] by (eexists; vm_compute; reflexivity).
  destruct (parser_dest_is_parameter_name _ _ _ _ _ Hspec)
    as (text & Htext & _ & Hcall & _).
  by exists spec, text.
Defined.

Lemma all_chars_append (P : ascii → bool) (s t : string) :
  all_chars P (s +:+ t) = all_chars P s && all_chars P t.
Proof.
  induction s as [|c s IH]; [done|].
  rewrite append_cons. cbn [all_chars]. by rewrite IH, andb_assoc.
Qed.

Lemma pretty_N_go_no_newline (x : N) (s : string) :
  all_chars not_newline s = true →
  all_chars not_newline (pretty_N_go x s) = true.
Proof.
  revert s. induction (N.lt_wf_0 x) as [x _ IH]; intros s Hs.
  assert (x = 0 ∨ 0 < x)%N as [->|?] by lia.
  - by rewrite pretty_N_go_0.
  - rewrite pretty_N_go_step by done. apply IH.
    { by apply N.div_lt. }
    cbn [all_chars]. rewrite Hs, andb_true_r.
    unfold pretty_N_char. by repeat case_match.
Qed.

Lemma pretty_nat_no_newline (n : nat) :
  all_chars not_newline (pretty n) = true.
Proof.
  unfold pretty, pretty_nat, pretty, pretty_N.
  case_decide; [done|]. by apply pretty_N_go_no_newline.
Qed.

(** X5: when some output comes from the return annotation, the generated
    program (the last item of the command) holds the parser line of the
    flag ["----output-paths"], with [dest] ["_output_paths"] and [nargs] the
    number of all outputs of the component, those with a passing style
    included. *)
Theorem output_paths_option_in_program (py : Interpreter) (dp : DataPassing)
    (func : Function) (opts : Options) (spec : ComponentSpec) :
  _func_to_component_spec py dp func opts = Ok spec →
  Exists (λ o, output_passing_style o = None) (outputs spec) →
  ∃ text,
    program_text spec = Some (Str text)
    ∧ occurs_in
        ("_parser.add_argument(" +:+ dq +:+ "----output-paths" +:+ dq
           +:+ ", dest=" +:+ dq +:+ "_output_paths" +:+ dq
           +:+ ", type=str, nargs=" +:+ pretty (length (outputs spec))
           +:+ ")")
        text.
Proof.
  intros Hok Hex.
  apply func_to_component_spec_ok in Hok
    as (img & calls & cs & func_code & st & _ & _ & _ & _ & ->).
  simpl in Hex. eexists. split.
  { unfold program_text. simpl. by rewrite last_app. }
  destruct (output_paths_line_ends (length (outputs cs))) as (Hne & Hs & He).
  cut (occurs_in (output_paths_line (length (outputs cs)))
         (generate_full_source py dp func opts cs func_code
            (scaffold_return_outputs cs st))); [done|].
  rewrite <- (sub_blank_lines_no_newline (output_paths_line _) 0).
  - apply parser_line_in_program; try done.
    rewrite scaffold_return_outputs_lines.
    apply elem_of_app. right.
    unfold outputs_passed_through_func_return_tuple.
    destruct (filter _ (outputs cs)) as [|o' l] eqn:Hf.
    + apply Exists_exists in Hex as (o & Ho & Hstyle).
      assert (o ∈ filter (λ o, output_passing_style o = None) (outputs cs))
        as Hin by by apply list_elem_of_filter.
      rewrite Hf in Hin. by apply elem_of_nil in Hin.
    + apply elem_of_cons. by left.
  - unfold output_paths_line. rewrite !all_chars_append.
    by rewrite pretty_nat_no_newline.
Qed.

Lemma output_paths_option_in_program_witness :
  ∃ spec text,
    _func_to_component_spec py_sample dp_sample write_and_return
      default_options = Ok spec
    ∧ length (filter (λ o, output_passing_style o = None) (outputs spec)) = 1
    ∧ program_text spec = Some (Str text)
    ∧ occurs_in
        ("_parser.add_argument(" +:+ dq +:+ "----output-paths" +:+ dq
           +:+ ", dest=" +:+ dq +:+ "_output_paths" +:+ dq
           +:+ ", type=str, nargs=2)")
        text.
Proof.
  assert (∃ spec,
            _func_to_component_spec py_sample dp_sample write_and_return
              default_options = Ok spec
            ∧ length (filter (λ o, output_passing_style o = None)
                        (outputs spec)) = 1
            ∧ length (outputs spec) = 2
            ∧ Exists (λ o, output_passing_style o = None) (outputs spec))
    as (spec & Hspec & Hret & Hlen & Hex).
  { eexists. split; [vm_compute; reflexivity|].
    split_and!; [reflexivity|reflexivity|].
    apply Exists_cons_tl, Exists_cons_hd. reflexivity. }
  destruct (output_paths_option_in_program _ _ _ _ _ Hspec Hex)
    as (text & Htext & Hocc).
  exists spec, text. rewrite Hlen in Hocc. by split_and!.
Defined.

(** X6: in an interface returned by the analysis an output has a
    [_parameter_name] exactly when it has a passing style, and an output
    with a NamedTuple field name has none of the two; so the loop that
    builds the parser, which runs over the inputs and the outputs that have
    a passing style, finds the [_parameter_name] of every descriptor it
    reads. *)
Theorem parameter_name_marks_file_outputs (dp : DataPassing)
    (func : Function) (spec : ComponentSpec) :
  _extract_component_interface dp func = Ok spec →
  Forall (λ o, (output_passing_style o ≠ None
                ↔ output_parameter_name o ≠ None)
               ∧ (output_return_tuple_field_name o ≠ None →
                  output_passing_style o = None))
    (outputs spec)
  ∧ Forall (λ x, ∃ parameter_name, io_parameter_name x = Ok parameter_name)
      ((inl <$> inputs spec)
         ++ (inr <$> filter (λ o, output_passing_style o ≠ None)
                       (outputs spec))).
Proof.
  intros Hok.
  pose proof (flagged_specs_parameters _ _ _ Hok) as Hflag.
  apply extract_component_interface_ok in Hok
    as (param_outs & ret_outs & Hout & _ & Fpar & Fret & _).
  split.
  - rewrite Hout. apply Forall_app. split.
    + eapply Forall2_Forall_r; [exact Fpar|].
      apply Forall_forall. intros p Hp o (Hn & Hs & Hf).
      apply list_elem_of_filter in Hp as [Hp _].
      unfold is_output_parameter in Hp. rewrite Hn, Hs, Hf.
      destruct (marker_style p); [|done]. by split_and!.
    + eapply Forall2_Forall_r; [exact Fret|].
      apply Forall_forall. intros f _ o (Hs & Hn & _). rewrite Hn, Hs.
      by split_and!.
  - eapply Forall2_Forall_r; [exact Hflag|].
    apply Forall_forall. intros p _ x Hx. by eexists.
Qed.

Lemma parameter_name_marks_file_outputs_witness :
  ∃ spec, _extract_component_interface dp_sample write_and_return = Ok spec
          ∧ output_parameter_name <$> outputs spec = [Some "out_path"; None]
          ∧ Forall (λ o, output_passing_style o ≠ None
                         ↔ output_parameter_name o ≠ None) (outputs spec).
Proof.
  assert (∃ spec,
            _extract_component_interface dp_sample write_and_return = Ok spec
            ∧ output_parameter_name <$> outputs spec
              = [Some "out_path"; None])
    as (spec & Hspec & Hnames) by (eexists; vm_compute; split; reflexivity).
  exists spec. split_and!; [done|done|].
  destruct (parameter_name_marks_file_outputs _ _ _ Hspec) as [Hall _].
  eapply Forall_impl; [exact Hall|]. by intros o [? _].
Defined.

End ProgramClaims.

(** ** Images, versions and the order of sets *)

Module ClaimFacts.
Import PyStr Naming Structures PythonOp Shape Samples.
Import InterfaceFacts TemplateFacts ImageFacts LoaderFacts ProgramFacts.

(** C7: an explicit image and a different image attached to the function
    make the assembly fail with the [ValueError] of the conflict, whatever
    the rest of the function is like, since the image is settled first;
    otherwise the image of the component is the explicit one, else the
    attached one, else the default, and the factory of a default image is
    called only when neither of the first two is there, once. *)
Theorem image_conflict_or_precedence (py : Interpreter) (dp : DataPassing)
    (func : Function) (opts : Options) :
  (∀ explicit attached,
     base_image opts = Some explicit →
     _component_base_image func = Some attached →
     attached ≠ explicit →
     _func_to_component_spec py dp func opts
     = Raise (ValueError
                ("base_image (" +:+ explicit
                 +:+ ") conflicts with the decorator-specified base image metadata ("
                 +:+ attached +:+ ")")))
  ∧ (∀ spec, _func_to_component_spec py dp func opts = Ok spec →
     image <$> implementation spec
     = Some match base_image opts, _component_base_image func with
            | Some explicit, _ => explicit
            | None, Some attached => attached
            | None, None =>
                match _default_base_image py with
                | ImageName name => name
                | ImageFactory factory => factory ()
                end
            end)
  ∧ (∀ image calls,
       resolve_base_image py func (base_image opts) = Ok (image, calls) →
       calls = match base_image opts, _component_base_image func,
                     _default_base_image py with
               | None, None, ImageFactory _ => 1
               | _, _, _ => 0
               end).
Proof.
  split_and!.
  - intros explicit attached He Ha Hne.
    unfold _func_to_component_spec, resolve_base_image.
    rewrite He, Ha. by rewrite decide_True by done.
  - intros spec Hok. destruct (image_conflict func opts) eqn:Hc.
    + destruct (resolve_base_image_conflict py _ _ Hc) as [msg Hmsg].
      unfold _func_to_component_spec in Hok. by rewrite Hmsg in Hok.
    + apply func_to_component_spec_ok in Hok
        as (img & calls & cs & func_code & st & Himg & _ & _ & _ & ->).
      rewrite resolve_base_image_ok in Himg by done.
      injection Himg as <- _. simpl. by f_equal.
  - intros image calls Hres. destruct (image_conflict func opts) eqn:Hc.
    + destruct (resolve_base_image_conflict py _ _ Hc) as [msg Hmsg].
      by rewrite Hmsg in Hres.
    + rewrite resolve_base_image_ok in Hres by done.
      by injection Hres as _ <-.
Qed.

Lemma image_conflict_or_precedence_witness :
  _func_to_component_spec py_sample dp_sample (train_on "python:3.7")
    (with_base_image "python:3.8")
  = Raise (ValueError
             "base_image (python:3.8) conflicts with the decorator-specified base image metadata (python:3.7)").
Proof.
  apply (proj1 (image_conflict_or_precedence py_sample dp_sample
                  (train_on "python:3.7") (with_base_image "python:3.8"))
           "python:3.8" "python:3.7"); [reflexivity|reflexivity|discriminate].
Defined.

Lemma loader_raises_iff (pickler current : VersionInfo) :
  loader_version_check pickler current = RaisesRuntimeError
  ↔ major current ≠ major pickler
    ∨ minor current < minor pickler
    ∨ pre_3_6 pickler ≠ pre_3_6 current.
Proof.
  unfold loader_version_check.
  destruct (Nat.eqb_spec (major current) (major pickler)) as [Hmaj|Hmaj];
    simpl; [|by intuition].
  destruct (Nat.ltb_spec (minor current) (minor pickler)); simpl;
    [by intuition|].
  rewrite (pre_3_6_differs _ _ Hmaj).
  destruct (Nat.eqb_spec (major current) 3); simpl.
  - destruct (minor pickler <? 6), (minor current <? 6); simpl;
      try case_decide; split; intros; try done; try naive_solver lia.
  - case_decide; split; intros; try done; naive_solver lia.
Qed.

(** The claim C8 as it is written fails when a loader pickled on 3.8 runs
    on 3.7: same major version, both 3.6 or later, and yet it raises. *)
Lemma minor_downgrade_is_fatal :
  ¬ (loader_version_check v_3_8 v_3_7 = RaisesRuntimeError
     ↔ major v_3_7 ≠ major v_3_8 ∨ pre_3_6 v_3_8 ≠ pre_3_6 v_3_7).
Proof. intros [Hfatal _]. by destruct (Hfatal eq_refl). Qed.

(** C8, amended: the loader fails with [RuntimeError] if and only if the
    major versions differ, or the running interpreter has a lower minor
    version than the one that pickled, or exactly one of the two versions
    is older than 3.6; every other difference between the two version
    tuples only prints the warning. *)
Theorem loader_fatal_conditions (pickler current : VersionInfo) :
  (loader_version_check pickler current = RaisesRuntimeError
   ↔ major current ≠ major pickler
     ∨ minor current < minor pickler
     ∨ pre_3_6 pickler ≠ pre_3_6 current)
  ∧ (loader_version_check pickler current ≠ RaisesRuntimeError →
     current ≠ pickler →
     loader_version_check pickler current = PrintsWarning).
Proof.
  split; [apply loader_raises_iff|].
  unfold loader_version_check. destruct (_ || _); [done|].
  intros _ Hne. by rewrite decide_True.
Qed.

Lemma loader_fatal_conditions_witness :
  loader_version_check v_3_8 v_3_7 = RaisesRuntimeError
  ∧ loader_version_check v_3_7 v_3_8 = PrintsWarning.
Proof.
  split.
  - apply (proj1 (loader_fatal_conditions v_3_8 v_3_7)).
    right. left. simpl. lia.
  - apply (proj2 (loader_fatal_conditions v_3_7 v_3_8)); discriminate.
Defined.

End ClaimFacts.

(** ** The shared flag of the returned outputs, and the order of sets *)

Module AssemblyClaims.
Import PyStr Naming Structures PythonOp Shape Samples.
Import InterfaceFacts TemplateFacts ProgramFacts CaptureFacts OccurFacts.
Import ProgramClaims.

Lemma output_paths_line_in_program (py : Interpreter) (dp : DataPassing)
    (func : Function) (opts : Options) (spec : ComponentSpec) :
  _func_to_component_spec py dp func opts = Ok spec →
  filter (λ o, output_passing_style o = None) (outputs spec) ≠ [] →
  ∃ text,
    program_text spec = Some (Str text)
    ∧ occurs_in (output_paths_line (length (outputs spec))) text.
Proof.
  intros Hok Hne.
  apply func_to_component_spec_ok in Hok
    as (img & calls & cs & func_code & st & _ & _ & _ & _ & ->).
  simpl in *. eexists. split.
  { unfold program_text. simpl. by rewrite last_app. }
  destruct (output_paths_line_ends (length (outputs cs))) as (Hnil & Hs & He).
  rewrite <- (sub_blank_lines_no_newline (output_paths_line _) 0).
  - apply parser_line_in_program; try done.
    rewrite scaffold_return_outputs_lines.
    apply elem_of_app. right.
    unfold outputs_passed_through_func_return_tuple.
    destruct (filter _ (outputs cs)) as [|o' l]; [done|].
    apply elem_of_cons. by left.
  - unfold output_paths_line. rewrite !all_chars_append.
    by rewrite pretty_nat_no_newline.
Qed.

(** C1, at [def write_and_return(out_path: OutputPath()) -> str]: the
    component has the file output [out] and one output from the return
    annotation, [Output]; the args end with the shared flag followed by a
    placeholder for each of the two outputs, not only for [Output], and the
    parser of the generated program takes two values for the flag. *)
Theorem shared_flag_counts_every_output :
  ∃ spec text,
    _func_to_component_spec py_sample dp_sample write_and_return
      default_options = Ok spec
    ∧ output_name <$> outputs spec = ["out"; "Output"]
    ∧ output_name
        <$> filter (λ o, output_passing_style o = None) (outputs spec)
      = ["Output"]
    ∧ spec_args spec
      = [Str "--out"; OutputPathPlaceholder "out"; Str "----output-paths";
         OutputPathPlaceholder "out"; OutputPathPlaceholder "Output"]
    ∧ program_text spec = Some (Str text)
    ∧ occurs_in
        ("_parser.add_argument(" +:+ dq +:+ "----output-paths" +:+ dq
           +:+ ", dest=" +:+ dq +:+ "_output_paths" +:+ dq
           +:+ ", type=str, nargs=2)")
        text.
Proof.
  assert (∃ spec,
            _func_to_component_spec py_sample dp_sample write_and_return
              default_options = Ok spec
            ∧ output_name <$> outputs spec = ["out"; "Output"]
            ∧ output_name
                <$> filter (λ o, output_passing_style o = None) (outputs spec)
              = ["Output"]
            ∧ spec_args spec
              = [Str "--out"; OutputPathPlaceholder "out";
                 Str "----output-paths"; OutputPathPlaceholder "out";
                 OutputPathPlaceholder "Output"])
    as (spec & Hspec & Hall & Hret & Hargs).
  { eexists. split; [vm_compute; reflexivity|].
    split_and!; reflexivity. }
  destruct (output_paths_line_in_program _ _ _ _ _ Hspec)
    as (text & Htext & Hocc).
  { intros Hnil. by rewrite Hnil in Hret. }
  exists spec, text. split_and!; try done.
  apply (f_equal length) in Hall. rewrite length_fmap in Hall.
  rewrite Hall in Hocc. exact Hocc.
Qed.

Lemma set_order_irrelevant_parts (py1 py2 : Interpreter) :
  same_but_set_order py1 py2 →
  (∀ func explicit,
     resolve_base_image py1 func explicit
     = resolve_base_image py2 func explicit)
  ∧ (∀ func opts,
       capture_function_code py1 func opts
       = capture_function_code py2 func opts)
  ∧ (∀ cs, initial_scaffold py1 cs = initial_scaffold py2 cs)
  ∧ (∀ packages,
       package_preinstallation_command py1 packages
       = package_preinstallation_command py2 packages)
  ∧ (∀ dp return_outputs definitions,
       output_serializers py1 dp return_outputs definitions
       = output_serializers py2 dp return_outputs definitions).
Proof.
  destruct py1 as [r1 l1 v1 i1 c1 m1], py2 as [r2 l2 v2 i2 c2 m2].
  unfold same_but_set_order. simpl.
  intros (<- & <- & <- & <- & <-). split_and!; try done.
  intros dp return_outputs.
  induction return_outputs as [|o rest IH]; intros definitions; [done|].
  cbn [output_serializers].
  change (get_serializer_and_register_definitions
            (mkInterpreter r1 l1 v1 i1 c1 m1))
    with (get_serializer_and_register_definitions
            (mkInterpreter r1 l2 v1 i1 c1 m1)).
  destruct (get_serializer_and_register_definitions _ _ _ _) as [call defs].
  by rewrite IH.
Qed.

(** The claim C2 as it is written fails: the two interpreters agree on
    everything but the order in which a set is listed, both list every
    element once, and the specifications assembled for [write_and_return]
    differ. *)
Lemma set_order_reaches_the_program :
  lists_elements py_sample
  ∧ lists_elements py_reversed
  ∧ same_but_set_order py_sample py_reversed
  ∧ _func_to_component_spec py_sample dp_sample write_and_return
      default_options
    ≠ _func_to_component_spec py_reversed dp_sample write_and_return
        default_options.
Proof.
  split_and!.
  - by intros s.
  - intros s. apply reverse_Permutation.
  - by repeat split.
  - intros Heq. vm_compute in Heq. discriminate Heq.
Qed.

(** C2, amended: for two interpreters that differ at most in the order in
    which they list a set, the assembly succeeds for both or for neither;
    name, description, inputs, outputs, image, args and the command up to its
    last item are the same; and the whole result, program text included, is
    the same when the two list every set in the same order. *)
Theorem assembly_up_to_set_order (py1 py2 : Interpreter) (dp : DataPassing)
    (func : Function) (opts : Options) :
  same_but_set_order py1 py2 →
  ((∀ s, set_to_list py1 s = set_to_list py2 s) →
   _func_to_component_spec py1 dp func opts
   = _func_to_component_spec py2 dp func opts)
  ∧ (∀ spec1, _func_to_component_spec py1 dp func opts = Ok spec1 →
     ∃ spec2 impl1 impl2 prefix text1 text2,
       _func_to_component_spec py2 dp func opts = Ok spec2
       ∧ name spec1 = name spec2
       ∧ description spec1 = description spec2
       ∧ inputs spec1 = inputs spec2
       ∧ outputs spec1 = outputs spec2
       ∧ implementation spec1 = Some impl1
       ∧ implementation spec2 = Some impl2
       ∧ image impl1 = image impl2
       ∧ args impl1 = args impl2
       ∧ command impl1 = prefix ++ [Str text1]
       ∧ command impl2 = prefix ++ [Str text2])
  ∧ (∀ e, _func_to_component_spec py1 dp func opts = Raise e →
     _func_to_component_spec py2 dp func opts = Raise e).
Proof.
  intros Hsame.
  destruct (set_order_irrelevant_parts _ _ Hsame)
    as (Hres & Hcap & Hinit & Hpkg & Hser).
  split_and!.
  - intros Hext. unfold _func_to_component_spec.
    rewrite Hres.
    destruct (resolve_base_image _ _ _) as [[img calls]|?]; [|done]. simpl.
    destruct (_extract_component_interface _ _) as [cs|?]; [|done]. simpl.
    rewrite Hcap.
    destruct (capture_function_code _ _ _) as [func_code|?]; [|done]. simpl.
    rewrite Hinit.
    destruct (scaffold_inputs _ _ _) as [st|?]; [|done]. simpl.
    rewrite Hpkg. unfold generate_full_source. rewrite Hser.
    destruct (output_serializers _ _ _ _) as [strings defs].
    by rewrite !Hext.
  - intros spec1 Hok.
    apply func_to_component_spec_ok in Hok
      as (img & calls & cs & func_code & st & Himg & Hcs & Hfc & Hst & ->).
    eexists _, _, _,
      (package_preinstallation_command py2 (default [] (packages_to_install opts))
         ++ [Str "python3"; Str "-u"; Str "-c"]), _, _.
    split.
    { unfold _func_to_component_spec.
      rewrite <- Hres, Himg. simpl. rewrite Hcs. simpl.
      rewrite <- Hcap, Hfc. simpl. rewrite <- Hinit, Hst. simpl.
      reflexivity. }
    simpl. split_and!; try done.
    + by rewrite Hpkg, <- app_assoc.
    + by rewrite <- app_assoc.
  - intros e. unfold _func_to_component_spec.
    rewrite Hres.
    destruct (resolve_base_image _ _ _) as [[img calls]|?]; [|done]. simpl.
    destruct (_extract_component_interface _ _) as [cs|?]; [|done]. simpl.
    rewrite Hcap.
    destruct (capture_function_code _ _ _) as [func_code|?]; [|done]. simpl.
    rewrite Hinit.
    by destruct (scaffold_inputs _ _ _) as [st|?].
Qed.

Lemma assembly_up_to_set_order_witness :
  ∃ spec1 spec2,
    _func_to_component_spec py_sample dp_sample write_and_return
      default_options = Ok spec1
    ∧ _func_to_component_spec py_reversed dp_sample write_and_return
        default_options = Ok spec2
    ∧ inputs spec1 = inputs spec2
    ∧ outputs spec1 = outputs spec2
    ∧ spec_args spec1 = spec_args spec2.
Proof.
  assert (∃ spec1,
            _func_to_component_spec py_sample dp_sample write_and_return
              default_options = Ok spec1)
    as [spec1 H1] by (eexists; vm_compute; reflexivity).
  assert (same_but_set_order py_sample py_reversed) as Hsame
    by by repeat split.
  destruct (proj1 (proj2 (assembly_up_to_set_order py_sample py_reversed
                            dp_sample write_and_return default_options Hsame))
              spec1 H1)
    as (spec2 & impl1 & impl2 & prefix & text1 & text2 & H2 & _ & _ & Hin
        & Hout & Hi1 & Hi2 & _ & Hargs & _).
  exists spec1, spec2. split_and!; try done.
  unfold spec_args. by rewrite Hi1, Hi2, Hargs.
Defined.

End AssemblyClaims.
